(** * kubectl-fzf: the resource store ([pkg/resourcewatcher/k8s_store.go])

    A shallow embedding of [K8sStore] and of the part of the Go runtime and
    operating system it talks to (files, [bufio], the clock, [glog]), and
    the properties of the store that the specification states.

    Layout:
    - [GoString]: byte strings, positioned writes, line splitting;
    - errors, time, the file system and [os.File];
    - [bufio.Writer];
    - the [Go] monad: store + file system + log, with panics;
    - the store's methods, transcribed from the source;
    - specifications of the primitives, then the properties of the store. *)

From Stdlib Require Import ZArith String Ascii List Lia.
From stdpp Require Import base option list gmap strings.

Local Open Scope string_scope.
Local Open Scope nat_scope.

(** ** Byte strings *)

Module GoString.

Fixpoint take (n : nat) (s : string) : string :=
  match n, s with
  | S n', String c s' => String c (take n' s')
  | _, _ => EmptyString
  end.

Fixpoint drop (n : nat) (s : string) : string :=
  match n, s with
  | S n', String _ s' => drop n' s'
  | _, _ => s
  end.

(** [n] NUL bytes: what a write beyond the end of a file leaves in the gap. *)
Fixpoint zeros (n : nat) : string :=
  match n with
  | 0 => EmptyString
  | S n' => String Ascii.zero (zeros n')
  end.

(** The content of a file after writing [d] at offset [off]. *)
Definition pwrite (c : string) (off : nat) (d : string) : string :=
  take off (c +:+ zeros (off - String.length c)) +:+ d
    +:+ drop (off + String.length d) c.

Definition newline : ascii := "010"%char.

Fixpoint nl_free (s : string) : bool :=
  match s with
  | EmptyString => true
  | String c s' => negb (Ascii.eqb c newline) && nl_free s'
  end.

(** [is_line s]: [s] is one text line, newline-terminated. *)
Fixpoint is_line (s : string) : bool :=
  match s with
  | EmptyString => false
  | String c EmptyString => Ascii.eqb c newline
  | String c s' => negb (Ascii.eqb c newline) && is_line s'
  end.

(** Splits a text into its lines; every line keeps its terminator, an
    unterminated rest is the last line. *)
Fixpoint lines_from (cur : string) (s : string) : list string :=
  match s with
  | EmptyString => match cur with EmptyString => [] | _ => [cur] end
  | String c s' =>
      if Ascii.eqb c newline
      then (cur +:+ String c EmptyString) :: lines_from EmptyString s'
      else lines_from (cur +:+ String c EmptyString) s'
  end.

Definition lines (s : string) : list string := lines_from EmptyString s.

Definition concat (l : list string) : string :=
  foldr String.app EmptyString l.

End GoString.

(** ** Errors *)

(** Go [error] values: the errors of package [os], [io.ErrShortWrite] and
    the wrapping of [github.com/pkg/errors]. *)
Inductive error : Type :=
| PathError (op path cause : string)
| LinkError (op old new cause : string)
| ErrShortWrite
| Wrapf (cause : error) (msg : string).

Definition is_wrapped (e : error) : bool :=
  match e with Wrapf _ _ => true | _ => false end.

(** ** Time *)

(** A [time.Time] is a number of nanoseconds since the zero time
    [time.Time{}]; a [time.Duration] is an [int64] of nanoseconds. *)
Definition maxDuration : Z := 2 ^ 63 - 1.
Definition minDuration : Z := - 2 ^ 63.

Definition isDuration (d : Z) : Prop := (minDuration <= d <= maxDuration)%Z.

(** [t.Sub(u)]: the difference, saturated to the range of [Duration]. *)
Definition Time_Sub (t u : Z) : Z :=
  if (maxDuration <? t - u)%Z then maxDuration
  else if (t - u <? minDuration)%Z then minDuration
  else (t - u)%Z.

Definition zeroTime : Z := 0%Z.

(** ** The file system *)

(** An open file (an [os.File]): the inode it refers to, its offset, and
    whether it has been closed. A handle follows its inode through
    renames. *)
Record File : Type := mkFile {
  f_name : string;
  f_ino : nat;
  f_off : nat;
  f_closed : bool
}.

(** What the environment does to the next system call: let it through, or
    fail it ([IoFail n]: for a write, after [n] bytes went out). *)
Inductive fault : Type := IoOk | IoFail (n : nat).

Inductive syscall : Type :=
| SysMkdir (path : string)
| SysOpen (path : string)
| SysWrite (ino : nat) (d : string)
| SysFsync (ino : nat)
| SysClose (ino : nat)
| SysRename (old new : string).

(** [inodes]: file contents; [dir]: the name space; [faults]: the outcome
    of the system calls to come (none left: they succeed); [trace]: the
    system calls made so far, oldest first, each with its success. *)
Record FS : Type := mkFS {
  inodes : gmap nat string;
  dir : gmap string nat;
  next_ino : nat;
  faults : list fault;
  trace : list (syscall * bool)
}.

Definition content (fs : FS) (i : nat) : string :=
  default EmptyString (inodes fs !! i).

(** What a reader that opens [path] sees. *)
Definition read_path (fs : FS) (path : string) : option string :=
  i ← dir fs !! path; Some (content fs i).

Definition next_fault (fs : FS) : fault :=
  match faults fs with [] => IoOk | f :: _ => f end.

(** One system call: consumes a fault entry and extends the trace. *)
Definition enter (c : syscall) (ok : bool) (fs : FS) : FS :=
  mkFS (inodes fs) (dir fs) (next_ino fs) (tail (faults fs))
       (trace fs ++ [(c, ok)]).

Definition set_inode (i : nat) (c : string) (fs : FS) : FS :=
  mkFS (<[i := c]> (inodes fs)) (dir fs) (next_ino fs) (faults fs) (trace fs).

Definition set_dir (d : gmap string nat) (fs : FS) : FS :=
  mkFS (inodes fs) d (next_ino fs) (faults fs) (trace fs).

Definition bump_ino (fs : FS) : FS :=
  mkFS (inodes fs) (dir fs) (S (next_ino fs)) (faults fs) (trace fs).

Definition ENOENT : string := "no such file or directory".
Definition EIO : string := "input/output error".
Definition ErrClosed : string := "file already closed".

(** [os.MkdirAll]: directories are not part of the name space modelled
    here. The calls it makes for the directories on the way are taken as
    one step, which succeeds or fails; the error of the real call names
    the directory that could not be made, which may be a parent of
    [path]. *)
Definition os_MkdirAll (path : string) (fs : FS) : option error * FS :=
  match next_fault fs with
  | IoFail _ => (Some (PathError "mkdir" path EIO), enter (SysMkdir path) false fs)
  | IoOk => (None, enter (SysMkdir path) true fs)
  end.

(** [os.Create]: open with [O_RDWR|O_CREATE|O_TRUNC]. An existing file is
    truncated in place (same inode); otherwise a new inode is linked at
    [path]. On failure the file is [nil]. *)
Definition os_Create (path : string) (fs : FS) : (option File * option error) * FS :=
  match next_fault fs with
  | IoFail _ =>
      ((None, Some (PathError "open" path EIO)), enter (SysOpen path) false fs)
  | IoOk =>
      let fs1 := enter (SysOpen path) true fs in
      match dir fs1 !! path with
      | Some i => ((Some (mkFile path i 0 false), None), set_inode i EmptyString fs1)
      | None =>
          let i := next_ino fs1 in
          ((Some (mkFile path i 0 false), None),
           bump_ino (set_dir (<[path := i]> (dir fs1)) (set_inode i EmptyString fs1)))
      end
  end.

(** [File.Write] and [File.WriteString] of package [os]: the bytes go to the file's
    current offset. A closed file is refused before any system call. *)
Definition File_Write (f : File) (d : string) (fs : FS) : (nat * option error) * File * FS :=
  if f_closed f then ((0, Some (PathError "write" (f_name f) ErrClosed)), f, fs)
  else
    match next_fault fs with
    | IoFail n =>
        let m := n `min` String.length d in
        let done := GoString.take m d in
        ((m, Some (PathError "write" (f_name f) EIO)),
         mkFile (f_name f) (f_ino f) (f_off f + m) false,
         set_inode (f_ino f) (GoString.pwrite (content fs (f_ino f)) (f_off f) done)
           (enter (SysWrite (f_ino f) d) false fs))
    | IoOk =>
        ((String.length d, None),
         mkFile (f_name f) (f_ino f) (f_off f + String.length d) false,
         set_inode (f_ino f) (GoString.pwrite (content fs (f_ino f)) (f_off f) d)
           (enter (SysWrite (f_ino f) d) true fs))
    end.

(** [File.Sync] of package [os] *)
Definition File_Sync (f : File) (fs : FS) : option error * FS :=
  if f_closed f then (Some (PathError "sync" (f_name f) ErrClosed), fs)
  else
    match next_fault fs with
    | IoFail _ => (Some (PathError "sync" (f_name f) EIO), enter (SysFsync (f_ino f)) false fs)
    | IoOk => (None, enter (SysFsync (f_ino f)) true fs)
    end.

(** [File.Close] of package [os]: the handle is closed whatever [close(2)] says. *)
Definition File_Close (f : File) (fs : FS) : option error * File * FS :=
  if f_closed f then (Some (PathError "close" (f_name f) ErrClosed), f, fs)
  else
    let f' := mkFile (f_name f) (f_ino f) (f_off f) true in
    match next_fault fs with
    | IoFail _ => (Some (PathError "close" (f_name f) EIO), f', enter (SysClose (f_ino f)) false fs)
    | IoOk => (None, f', enter (SysClose (f_ino f)) true fs)
    end.

(** [os.Rename]: atomically makes [new] name the inode of [old]; the
    inode [new] named before stays reachable through open handles only. *)
Definition os_Rename (old new : string) (fs : FS) : option error * FS :=
  match next_fault fs with
  | IoFail _ =>
      (Some (LinkError "rename" old new EIO), enter (SysRename old new) false fs)
  | IoOk =>
      match dir fs !! old with
      | None =>
          (Some (LinkError "rename" old new ENOENT), enter (SysRename old new) false fs)
      | Some i =>
          (None, set_dir (<[new := i]> (delete old (dir fs)))
                   (enter (SysRename old new) true fs))
      end
  end.

(** ** [bufio.Writer] *)

(** A buffered writer over an open file. The writer holds the file
    pointer, so [wr] is also the current state of that [os.File]. *)
Record Writer : Type := mkWriter {
  wr : File;
  buf : string;
  werr : option error
}.

Definition bufSize : nat := 4096.

Definition bufio_NewWriter (f : File) : Writer := mkWriter f EmptyString None.

Definition Available (b : Writer) : nat := bufSize - String.length (buf b).

(** [Flush]: a writer that failed once keeps its error; what a failed
    write did send leaves the buffer. *)
Definition Flush (b : Writer) (fs : FS) : option error * Writer * FS :=
  match werr b with
  | Some e => (Some e, b, fs)
  | None =>
      match buf b with
      | EmptyString => (None, b, fs)
      | _ =>
          let '((n, err), f, fs') := File_Write (wr b) (buf b) fs in
          let err :=
            match err with
            | None => if n <? String.length (buf b) then Some ErrShortWrite else None
            | Some e => Some e
            end in
          match err with
          | Some e => (Some e, mkWriter f (GoString.drop n (buf b)) (Some e), fs')
          | None => (None, mkWriter f EmptyString None, fs')
          end
      end
  end.

(** The loop of [WriteString]: while the string does not fit and the
    writer has not failed, fill the buffer and flush it. *)
Fixpoint WriteString_loop (fuel : nat) (b : Writer) (s : string) (fs : FS)
  : Writer * string * FS :=
  match fuel with
  | 0 => (b, s, fs)
  | S fuel' =>
      if (Available b <? String.length s) && bool_decide (werr b = None) then
        let n := Available b in
        let b1 := mkWriter (wr b) (buf b +:+ GoString.take n s) (werr b) in
        let '(_, b2, fs') := Flush b1 fs in
        WriteString_loop fuel' b2 (GoString.drop n s) fs'
      else (b, s, fs)
  end.

(** [WriteString]; the byte count it also returns is dropped, no caller
    looks at it. Only the first round of the loop can find the buffer
    full, every other one shortens [s]: [length s + 2] rounds are enough
    (lemma [WriteString_loop_exit]). *)
Definition WriteString (b : Writer) (s : string) (fs : FS) : option error * Writer * FS :=
  let '(b1, s1, fs1) := WriteString_loop (String.length s + 2) b s fs in
  match werr b1 with
  | Some e => (Some e, b1, fs1)
  | None => (None, mkWriter (wr b1) (buf b1 +:+ s1) None, fs1)
  end.

(** ** Logging *)

(** [glog]: what is logged, and at which severity or verbosity; the
    formatted arguments are left out. *)
Inductive severity : Type := INFO (v : nat) | WARNING.

Definition logEntry : Type := severity * string.

(** ** Raw objects and resources *)

(** The dynamic types a callback can receive as [interface{}]: an API
    object (it implements [metav1.ObjectMetaAccessor]), the informer's
    tombstone [cache.DeletedFinalStateUnknown], or anything else. *)
Inductive Obj (P : Type) : Type :=
| Object (ns name : string) (body : P)
| DeletedFinalStateUnknown (Key : string) (obj : Obj P)
| Foreign (tag : string).

Arguments Object {P} ns name body.
Arguments DeletedFinalStateUnknown {P} Key obj.
Arguments Foreign {P} tag.

(** The methods of [k8sresources.K8sResource] the store calls.
    [HasChanged] receives [k.data[key]], which is [nil] for a missing key. *)
Class K8sResource (R : Type) : Type := {
  HasChanged : R -> option R -> bool;
  ToString : R -> string
}.

(** The order in which [range] visits a map is not specified: any
    enumeration of the entries. *)
Class GoRuntime : Type := {
  mapRange : forall {V : Type}, gmap string V -> list (string * V);
  mapRange_perm : forall (V : Type) (m : gmap string V), mapRange m ≡ₚ map_to_list m
}.

(** [fmt.Sprintf("%s_%s", ns, name)] *)
Definition objectKey (ns name : string) : string := ns +:+ "_" +:+ name.

(** [resourceKey]; [None] is the panic of the type assertion
    [obj.(metav1.ObjectMetaAccessor)]. *)
Definition resourceKey {P : Type} (obj : Obj P) : option string :=
  match obj with
  | Object ns name _ => Some (objectKey ns name)
  | _ => None
  end.

Record StoreConfig : Type := mkStoreConfig {
  Cluster : string;
  CacheDir : string;
  TimeBetweenFullDump : Z
}.

(** ** Package [path] *)

(** The elements of a path: what stands between its slashes, empty
    elements included. [cur] is the element being read. *)
Fixpoint path_elements (cur : string) (p : string) : list string :=
  match p with
  | EmptyString => [cur]
  | String c p' =>
      if Ascii.eqb c "/"
      then cur :: path_elements EmptyString p'
      else path_elements (cur +:+ String c EmptyString) p'
  end.

(** The pass of [path.Clean] over the elements, [out] being what is kept
    so far, last element first: empty elements and [.] are dropped; [..]
    takes back the element before it, is kept where there is nothing to
    take back in a path that is not rooted, and is dropped at the root. *)
Fixpoint path_clean_elements (rooted : bool) (es out : list string) : list string :=
  match es with
  | [] => rev out
  | e :: es' =>
      if String.eqb e EmptyString || String.eqb e "." then path_clean_elements rooted es' out
      else if String.eqb e ".." then
        match out with
        | top :: out' =>
            if String.eqb top ".." then path_clean_elements rooted es' (e :: out)
            else path_clean_elements rooted es' out'
        | [] =>
            if rooted then path_clean_elements rooted es' []
            else path_clean_elements rooted es' [e]
        end
      else path_clean_elements rooted es' (e :: out)
  end.

Fixpoint path_unsplit (es : list string) : string :=
  match es with
  | [] => EmptyString
  | [e] => e
  | e :: es' => e +:+ "/" +:+ path_unsplit es'
  end.

(** [path.Clean]: the shortest path that names the same file by purely
    lexical processing; the empty path becomes [.]. *)
Definition path_Clean (p : string) : string :=
  match p with
  | EmptyString => "."
  | String c _ =>
      let rooted := Ascii.eqb c "/" in
      let out := path_unsplit (path_clean_elements rooted (path_elements EmptyString p) []) in
      if rooted then "/" +:+ out
      else match out with EmptyString => "." | _ => out end
  end.

(** [path.Join] of two elements: empty elements are ignored, the others
    are joined by a slash and the result is cleaned; the join of nothing but
    empty elements is the empty string. *)
Definition path_Join (a b : string) : string :=
  match a, b with
  | EmptyString, EmptyString => EmptyString
  | EmptyString, _ => path_Clean b
  | _, _ => path_Clean (a +:+ "/" +:+ b)
  end.

Section Store.

Context {P R : Type} `{!K8sResource R} `{!GoRuntime}.

(** The fields of [watchConfig] that the store reads. *)
Record watchConfig : Type := mkWatchConfig {
  cfg_resourceCtor : Obj P -> R;
  cfg_resourceName : string;
  cfg_header : string
}.

(** [resourceCtor] builds the record of an object; it does not fail. *)
Record K8sStore : Type := mkK8sStore {
  data : gmap string R;
  resourceCtor : Obj P -> R;
  header : string;
  resourceName : string;
  destFile : string;
  tempFileName : string;
  currentFile : File;
  lastFullDump : Z;
  storeConfig : StoreConfig;
  firstWrite : bool
}.

Definition set_data (d : gmap string R) (k : K8sStore) : K8sStore :=
  mkK8sStore d (resourceCtor k) (header k) (resourceName k) (destFile k)
    (tempFileName k) (currentFile k) (lastFullDump k) (storeConfig k) (firstWrite k).

Definition set_currentFile (f : File) (k : K8sStore) : K8sStore :=
  mkK8sStore (data k) (resourceCtor k) (header k) (resourceName k) (destFile k)
    (tempFileName k) f (lastFullDump k) (storeConfig k) (firstWrite k).

Definition set_lastFullDump (t : Z) (k : K8sStore) : K8sStore :=
  mkK8sStore (data k) (resourceCtor k) (header k) (resourceName k) (destFile k)
    (tempFileName k) (currentFile k) t (storeConfig k) (firstWrite k).

Definition set_firstWrite (b : bool) (k : K8sStore) : K8sStore :=
  mkK8sStore (data k) (resourceCtor k) (header k) (resourceName k) (destFile k)
    (tempFileName k) (currentFile k) (lastFullDump k) (storeConfig k) b.

(** [NewK8sStore]. [os.Create] returns a file or an error; the store
    returned next to an error is not usable and is left out. *)
Definition NewK8sStore (cfg : watchConfig) (storeConfig : StoreConfig) (fs : FS)
  : (K8sStore + error) * FS :=
  let destDir := path_Join (CacheDir storeConfig) (Cluster storeConfig) in
  let destFile := path_Join destDir (cfg_resourceName cfg) in
  let '(err, fs) := os_MkdirAll destDir fs in
  match err with
  | Some e => (inr (Wrapf e ("Error creating directory " +:+ destDir)), fs)
  | None =>
      let tempFileName := destFile +:+ "_" in
      let '((currentFile, err), fs) := os_Create tempFileName fs in
      match err, currentFile with
      | Some e, _ => (inr (Wrapf e ("Error creating file " +:+ tempFileName)), fs)
      | None, None => (inr (PathError "open" tempFileName EIO), fs)
      | None, Some f =>
          (inl (mkK8sStore ∅ (cfg_resourceCtor cfg) (cfg_header cfg)
                  (cfg_resourceName cfg) destFile tempFileName f zeroTime
                  storeConfig true), fs)
      end
  end.

(** *** The [Go] monad *)

(** What a method call works on: the store behind the receiver [k], the
    file system and the log. *)
Record State : Type := mkState {
  store : K8sStore;
  fsys : FS;
  glog : list logEntry
}.

(** A call returns, or panics; the state at the panic is what the
    process leaves behind. *)
Inductive outcome (A : Type) : Type :=
| Returns (a : A) (st : State)
| Panics (msg : string) (st : State).

Arguments Returns {A} a st.
Arguments Panics {A} msg st.

Definition Go (A : Type) : Type := State -> outcome A.

#[global] Instance Go_ret : MRet Go := fun A a st => Returns a st.

#[global] Instance Go_bind : MBind Go := fun A B f m st =>
  match m st with
  | Returns a st' => f a st'
  | Panics msg st' => Panics msg st'
  end.

Definition final {A : Type} (o : outcome A) : State :=
  match o with Returns _ st => st | Panics _ st => st end.

Definition getStore : Go K8sStore := fun st => Returns (store st) st.

Definition modify (f : K8sStore -> K8sStore) : Go unit :=
  fun st => Returns () (mkState (f (store st)) (fsys st) (glog st)).

Definition sys {A : Type} (call : FS -> A * FS) : Go A :=
  fun st => let '(a, fs') := call (fsys st) in
            Returns a (mkState (store st) fs' (glog st)).

Definition panic {A : Type} (msg : string) : Go A := fun st => Panics msg st.

Definition nilDeref : string :=
  "runtime error: invalid memory address or nil pointer dereference".

Definition log (sev : severity) (format : string) : Go unit :=
  fun st => Returns () (mkState (store st) (fsys st) (glog st ++ [(sev, format)])).

(** A method that reads a field of its receiver, as [f.Name()] does:
    a [nil] pointer panics. *)
Definition nonNil (f : option File) : Go File :=
  match f with
  | Some f' => mret f'
  | None => panic nilDeref
  end.

(** [k.currentFile.WriteString(s)] *)
Definition currentFile_WriteString (s : string) : Go (option error) :=
  fun st =>
    let '((_, err), f', fs') := File_Write (currentFile (store st)) s (fsys st) in
    Returns err (mkState (set_currentFile f' (store st)) fs' (glog st)).

(** [k.currentFile.Close()]; its error is dropped by the caller. *)
Definition currentFile_Close : Go unit :=
  fun st =>
    let '(_, f', fs') := File_Close (currentFile (store st)) (fsys st) in
    Returns () (mkState (set_currentFile f' (store st)) fs' (glog st)).

(** [resourceKey(obj)] as a call: the failed type assertion panics. *)
Definition call_resourceKey (obj : Obj P) : Go string :=
  match resourceKey obj with
  | Some key => mret key
  | None => panic "interface conversion: not a metav1.ObjectMetaAccessor"
  end.

(** *** The methods of the store *)

(** [AppendNewObject] *)
Definition AppendNewObject (resource : R) : Go (option error) :=
  k ← getStore;
  err ← (if firstWrite k then
           currentFile_WriteString (header k);;
           modify (set_firstWrite false);;
           sys (os_Rename (tempFileName k) (destFile k))
         else mret None);
  match err with
  | Some e => mret (Some e)
  | None =>
      err ← currentFile_WriteString (ToString resource);
      match err with
      | Some e => mret (Some e)
      | None => mret None
      end
  end.

(** The loop of [DumpFullState] over [k.data]; the first error leaves
    the loop. *)
Fixpoint writeRecords (vs : list (string * R)) (w : Writer) (fs : FS)
  : option error * Writer * FS :=
  match vs with
  | [] => (None, w, fs)
  | (_, v) :: vs' =>
      let '(err, w', fs') := WriteString w (ToString v) fs in
      match err with
      | Some e => (Some e, w', fs')
      | None => writeRecords vs' w' fs'
      end
  end.

(** [DumpFullState]; [now] is what [time.Now()] returns. *)
Definition DumpFullState (now : Z) : Go (option error) :=
  k ← getStore;
  let delta := Time_Sub now (lastFullDump k) in
  if bool_decide (delta < TimeBetweenFullDump (storeConfig k))%Z then
    log (INFO 10) "Last full dump for %s happened %s ago, ignoring it";;
    mret None
  else
    modify (set_lastFullDump now);;
    log (INFO 8) "Doing full dump %d %s";;
    '(tempFile, err) ← sys (os_Create (tempFileName k));
    f ← nonNil tempFile;
    log (INFO 12) "Creating temp file for full state %s";;
    match err with
    | Some e =>
        mret (Some (Wrapf e ("Error creating temp file " +:+ tempFileName k)))
    | None =>
        let w := bufio_NewWriter f in
        '(_, w) ← sys (WriteString w (header k));
        '(err, w) ← sys (writeRecords (mapRange (data k)) w);
        match err with
        | Some e =>
            mret (Some (Wrapf e ("Error writing bytes to file " +:+ tempFileName k)))
        | None =>
            '(err, w) ← sys (Flush w);
            match err with
            | Some e => mret (Some (Wrapf e "Error flushing buffer"))
            | None =>
                err ← sys (File_Sync (wr w));
                match err with
                | Some e => mret (Some (Wrapf e "Error syncing file"))
                | None =>
                    log (INFO 17) "Closing file %s";;
                    currentFile_Close;;
                    err ← sys (os_Rename (tempFileName k) (destFile k));
                    match err with
                    | Some e =>
                        mret (Some (Wrapf e ("Error moving file from "
                                +:+ tempFileName k +:+ " to " +:+ destFile k)))
                    | None =>
                        modify (set_currentFile (wr w));;
                        mret None
                    end
                end
            end
        end
    end.

Definition warnOnError (format : string) (err : option error) : Go unit :=
  match err with
  | Some _ => log WARNING format
  | None => mret ()
  end.

(** The loop of [AddResourceList]. *)
Fixpoint addAll (lst : list (Obj P)) : Go unit :=
  match lst with
  | [] => mret ()
  | runtimeObject :: lst' =>
      key ← call_resourceKey runtimeObject;
      modify (fun k => set_data (<[key := resourceCtor k runtimeObject]> (data k)) k);;
      addAll lst'
  end.

(** [AddResourceList] *)
Definition AddResourceList (now : Z) (lstRuntime : list (Obj P)) : Go unit :=
  modify (set_data ∅);;
  addAll lstRuntime;;
  err ← DumpFullState now;
  warnOnError "Error when dumping state: %v" err.

(** [AddResource] *)
Definition AddResource (obj : Obj P) : Go unit :=
  key ← call_resourceKey obj;
  k ← getStore;
  let newObj := resourceCtor k obj in
  log (INFO 11) "%s added: %s";;
  modify (fun k => set_data (<[key := newObj]> (data k)) k);;
  err ← AppendNewObject newObj;
  warnOnError "Error when appending new object to current state: %v" err.

(** [DeleteResource] *)
Definition DeleteResource (now : Z) (obj : Obj P) : Go unit :=
  key ← match obj with
        | DeletedFinalStateUnknown _ v_Obj => call_resourceKey v_Obj
        | Object _ _ _ => call_resourceKey obj
        | Foreign _ => log (INFO 6) "Unknown object type %v";; mret "Unknown"
        end;
  log (INFO 11) "%s deleted: %s";;
  modify (fun k => set_data (delete key (data k)) k);;
  err ← DumpFullState now;
  warnOnError "Error when dumping state: %v" err.

(** [UpdateResource] *)
Definition UpdateResource (now : Z) (oldObj newObj : Obj P) : Go unit :=
  key ← call_resourceKey newObj;
  k ← getStore;
  let k8sObj := resourceCtor k newObj in
  if HasChanged k8sObj (data k !! key) then
    log (INFO 11) "%s changed: %s";;
    modify (fun k => set_data (<[key := k8sObj]> (data k)) k);;
    err ← DumpFullState now;
    warnOnError "Error when dumping state: %v" err
  else mret ().

(** *** The event source *)

(** The calls the informer makes into a store, with the clock reading
    of those that reach [DumpFullState]. *)
Inductive call : Type :=
| OnList (now : Z) (lst : list (Obj P))
| OnAdd (obj : Obj P)
| OnUpdate (now : Z) (oldObj newObj : Obj P)
| OnDelete (now : Z) (obj : Obj P).

Definition exec (c : call) : Go unit :=
  match c with
  | OnList now lst => AddResourceList now lst
  | OnAdd obj => AddResource obj
  | OnUpdate now oldObj newObj => UpdateResource now oldObj newObj
  | OnDelete now obj => DeleteResource now obj
  end.

(** A serial stream of calls; a panic ends it. *)
Fixpoint run (cs : list call) : Go unit :=
  match cs with
  | [] => mret ()
  | c :: cs' => exec c;; run cs'
  end.

End Store.

Arguments Returns {P R A} a st.
Arguments Panics {P R A} msg st.

(** ** A resource kind: nodes *)

Module NodeResource.

(** [strings.Join] *)
Fixpoint Join (elems : list string) (sep : string) : string :=
  match elems with
  | [] => EmptyString
  | [e] => e
  | e :: rest => e +:+ sep +:+ Join rest sep
  end.

(** Modelled from the spec: [util.JoinSlicesOrNone] is not among the
    sources; a renderer substitutes a placeholder for an empty field. *)
Definition JoinSlicesOrNone (elems : list string) (sep : string) : string :=
  match elems with
  | [] => "None"
  | _ => Join elems sep
  end.

(** The summary of a node. [name], [age] and [labels] stand for the
    embedded [ResourceMeta] (not among the sources): the name, and what
    [resourceAge()] and [labelsString()] render. *)
Record Node : Type := mkNode {
  name : string;
  roles : list string;
  instanceType : string;
  zone : string;
  internalIP : string;
  age : string;
  labels : string
}.

Definition NodeHeader : string :=
  "Name Roles InstanceType Zone InternalIp Age Labels" +:+ String GoString.newline EmptyString.

Definition Node_HasChanged (n : Node) (k : option Node) : bool := true.

Definition Node_ToString (n : Node) : string :=
  let line := Join [name n; JoinSlicesOrNone (roles n) ","; instanceType n;
                    zone n; internalIP n; age n; labels n] " " in
  line +:+ String GoString.newline EmptyString.

#[export] Instance Node_K8sResource : K8sResource Node :=
  {| HasChanged := Node_HasChanged; ToString := Node_ToString |}.

(** [NewNodeFromRuntime], on raw objects that carry the fields already
    extracted; the name comes from the object's metadata. *)
Definition NewNodeFromRuntime (obj : Obj Node) : Node :=
  match obj with
  | Object _ nm body =>
      mkNode nm (roles body) (instanceType body) (zone body) (internalIP body)
        (age body) (labels body)
  | _ => mkNode EmptyString [] EmptyString EmptyString EmptyString EmptyString EmptyString
  end.

End NodeResource.

(** ** Nodes in full *)

(** [FromRuntime], [HasChanged] and [ToString] of [Node] as they are
    written, over what they use that is not among the sources and is taken
    as given: [metav1.ObjectMeta], the embedded [ResourceMeta] with
    [FromObjectMeta], its fields [name] and [labels], its methods
    [resourceAge] and [labelsString], and [util.JoinSlicesOrNone]. *)
Module NodeSummary.

(** [strings.HasPrefix] *)
Definition HasPrefix (s prefix : string) : bool := String.prefix prefix s.

(** [strings.Replace(s, old, new, 1)]: the leftmost occurrence of [old]
    is replaced. *)
Fixpoint Replace1 (s old new : string) : string :=
  if String.prefix old s then new +:+ GoString.drop (String.length old) s
  else match s with
       | EmptyString => EmptyString
       | String c s' => String c (Replace1 s' old new)
       end.

Definition nodePrefix : string := "node-role.kubernetes.io/".

(** The key of a role label without the prefix. *)
Definition strip (kv : string * string) : string :=
  GoString.drop (String.length nodePrefix) kv.1.

(** [corev1.NodeAddress] *)
Record NodeAddress : Type := mkNodeAddress {
  addrType : string;
  addrAddress : string
}.

Section Summary.

Context {ObjectMeta ResourceMeta : Type}.
Context (zeroMeta : ResourceMeta)
        (FromObjectMeta : ResourceMeta -> ObjectMeta -> ResourceMeta)
        (name : ResourceMeta -> string)
        (labels : ResourceMeta -> gmap string string)
        (resourceAge labelsString : ResourceMeta -> string)
        (JoinSlicesOrNone : list string -> string -> string).
Context {RT : GoRuntime}.

(** The parts of a [corev1.Node] that [FromRuntime] reads. *)
Record CoreNode : Type := mkCoreNode {
  nodeObjectMeta : ObjectMeta;
  nodeAddresses : list NodeAddress
}.

Record Node : Type := mkNode {
  meta : ResourceMeta;
  roles : list string;
  instanceType : string;
  zone : string;
  internalIP : string
}.

(** [&Node{}] *)
Definition zeroNode : Node := mkNode zeroMeta [] EmptyString EmptyString EmptyString.

(** The loop over [n.labels]: the keys with the prefix give the roles. *)
Fixpoint addRoles (kvs : list (string * string)) (roles : list string) : list string :=
  match kvs with
  | [] => roles
  | (k, _) :: kvs' =>
      if HasPrefix k nodePrefix
      then addRoles kvs' (roles ++ [Replace1 k nodePrefix EmptyString])%list
      else addRoles kvs' roles
  end.

(** The loop over [node.Status.Addresses]. *)
Fixpoint setInternalIP (addrs : list NodeAddress) (ip : string) : string :=
  match addrs with
  | [] => ip
  | v :: addrs' =>
      setInternalIP addrs' (if String.eqb (addrType v) "InternalIP" then addrAddress v else ip)
  end.

(** [FromRuntime], on an object that is a [corev1.Node]; a missing label
    reads as the empty string. *)
Definition FromRuntime (n : Node) (node : CoreNode) : Node :=
  let m := FromObjectMeta (meta n) (nodeObjectMeta node) in
  mkNode m
    (addRoles (mapRange (labels m)) (roles n))
    (default EmptyString (labels m !! "beta.kubernetes.io/instance-type"))
    (default EmptyString (labels m !! "failure-domain.beta.kubernetes.io/zone"))
    (setInternalIP (nodeAddresses node) (internalIP n)).

(** What an [interface{}] holds: a [corev1.Node] pointer or something
    else. *)
Inductive runtimeObj : Type :=
| IsNode (node : CoreNode)
| NotNode.

(** [NewNodeFromRuntime]; [None] is the panic of the type assertion of
    [obj] to a [corev1.Node] pointer. *)
Definition NewNodeFromRuntime (obj : runtimeObj) : option Node :=
  match obj with
  | IsNode node => Some (FromRuntime zeroNode node)
  | NotNode => None
  end.

Definition HasChanged (n : Node) (k : option Node) : bool := true.

Definition ToString (n : Node) : string :=
  let line := NodeResource.Join [name (meta n);
                                 JoinSlicesOrNone (roles n) ",";
                                 instanceType n;
                                 zone n;
                                 internalIP n;
                                 resourceAge (meta n);
                                 labelsString (meta n)] " " in
  line +:+ String GoString.newline EmptyString.

End Summary.

(** *** A node with two roles *)

(** Metadata that is a name and labels, kept as it comes. *)
Definition exMeta : Type := string * gmap string string.

Definition exNode : @CoreNode exMeta :=
  mkCoreNode
    ("n1", list_to_map [("node-role.kubernetes.io/master", "");
                        ("node-role.kubernetes.io/etcd", "");
                        ("beta.kubernetes.io/instance-type", "m5.large")])
    [mkNodeAddress "InternalIP" "10.0.0.1";
     mkNodeAddress "Hostname" "n1";
     mkNodeAddress "InternalIP" "10.0.0.2"].

Definition exFromObjectMeta (m om : exMeta) : exMeta := om.

End NodeSummary.

(** ** A concrete run *)

Module Scenario.
Import NodeResource.

(** A runtime whose [range] visits the entries in the order of
    [map_to_list]. *)
#[export] Instance runtime : GoRuntime :=
  {| mapRange := fun V m => map_to_list m;
     mapRange_perm := fun V m => reflexivity (map_to_list m) |}.

Definition emptyFS (fl : list fault) : FS := mkFS ∅ ∅ 0 fl [].

Definition cfg : @watchConfig Node Node :=
  mkWatchConfig NewNodeFromRuntime "nodes" NodeHeader.

(** Ten seconds between two full dumps. *)
Definition storeCfg : StoreConfig := mkStoreConfig "minikube" "/tmp/kubectl_fzf_cache" 10000000000.

Definition dest : string := "/tmp/kubectl_fzf_cache/minikube/nodes".
Definition temp : string := "/tmp/kubectl_fzf_cache/minikube/nodes_".

(** The state after [NewK8sStore], when the system calls to come meet
    the faults [fl]; [None] when the constructor fails. *)
Definition boot (fl : list fault) : option (@State Node Node) :=
  match NewK8sStore cfg storeCfg (emptyFS fl) with
  | (inl k, fs) => Some (mkState k fs [])
  | (inr _, _) => None
  end.

Definition body (ip : string) : Node :=
  mkNode EmptyString ["master"] "m5.large" "eu-west-1a" ip "2d" "None".

Definition x : Obj Node := Object "a" "x" (body "10.0.0.1").
Definition y : Obj Node := Object "a" "y" (body "10.0.0.2").

(** A clock reading: some instant of 2019, in nanoseconds since the
    zero time. *)
Definition t0 : Z := 63700000000000000000.

(** A placeholder for the state of a store that could not be built. *)
Definition blank : @State Node Node :=
  mkState (mkK8sStore ∅ NewNodeFromRuntime EmptyString EmptyString EmptyString
             EmptyString (mkFile EmptyString 0 0 true) zeroTime storeCfg true)
    (emptyFS []) [].

(** The state [NewK8sStore] leaves, under the faults [fl]. *)
Definition fresh (fl : list fault) : @State Node Node := default blank (boot fl).

(** The run of the calls [cs] on a new store, and the state it ends in. *)
Definition after (cs : list call) (fl : list fault) : outcome unit :=
  run cs (fresh fl).

Definition reached (cs : list call) (fl : list fault) : @State Node Node :=
  final (after cs fl).

Definition panicked {A : Type} (o : @outcome Node Node A) : bool :=
  match o with
  | Panics _ _ => true
  | Returns _ _ => false
  end.

Definition lineOf (obj : Obj Node) : string := Node_ToString (NewNodeFromRuntime obj).

(** Twenty seconds after [t0]: beyond the interval of [storeCfg]. *)
Definition t1 : Z := t0 + 20000000000.

(** The error a call returned, if it returned one. *)
Definition errorOf (o : @outcome Node Node (option error)) : error :=
  match o with
  | Returns (Some e) _ => e
  | _ => ErrShortWrite
  end.

(** A store that holds [x], listed at [t0]. *)
Definition listed : @State Node Node := reached [OnList t0 [x]] [].

(** A new store on which the first write of a dump will fail. *)
Definition failing : @State Node Node := fresh [IoOk; IoOk; IoOk; IoFail 0].

(** What a reader of the destination file sees, split into lines. *)
Definition destLines (st : @State Node Node) : option (list string) :=
  GoString.lines <$> read_path (fsys st) dest.

End Scenario.

(** ** More runs *)

Module MoreRuns.
Import NodeResource Scenario.

(** A store past its first write: [x] was added to a new store. *)
Definition added : @State Node Node := reached [OnAdd x] [].

(** The same store when the tenth system call is to fail: the rename of
    its first full rewrite. *)
Definition renameFailing : @State Node Node :=
  reached [OnAdd x] [IoOk; IoOk; IoOk; IoOk; IoOk; IoOk; IoOk; IoOk; IoOk; IoFail 0].

(** Something that is no API object. *)
Definition stray : Obj Node := Foreign "configmap".

(** The node of [NodeSummary.exNode], summarised. *)
Definition exSummary : @NodeSummary.Node NodeSummary.exMeta :=
  NodeSummary.FromRuntime NodeSummary.exFromObjectMeta snd
    (NodeSummary.zeroNode (EmptyString, ∅)) NodeSummary.exNode.

Definition exAge (m : NodeSummary.exMeta) : string := "2d".
Definition exLabelsString (m : NodeSummary.exMeta) : string := "None".

End MoreRuns.

(** ** Notions the properties are stated with *)

Fixpoint has_underscore (s : string) : bool :=
  match s with
  | EmptyString => false
  | String c s' => Ascii.eqb c "_"%char || has_underscore s'
  end.

(** [fs'] differs from [fs] at most in the content of inode [i]: the name
    space and all other files are those of [fs]. *)
Definition only_ino (i : nat) (fs fs' : FS) : Prop :=
  dir fs' = dir fs /\ next_ino fs' = next_ino fs /\
  forall j, j <> i -> inodes fs' !! j = inodes fs !! j.

(** [fs'] has the files of [fs], under the same names. *)
Definition same_files (fs fs' : FS) : Prop :=
  dir fs' = dir fs /\ next_ino fs' = next_ino fs /\ inodes fs' = inodes fs.

(** The shape of a file system built by [os.Create] and [os.Rename]
    alone: inode numbers in use are below [next_ino], and no inode has two
    names (there is no hard link). *)
Record fs_ok (fs : FS) : Prop := mk_fs_ok {
  ok_bound : forall p i, dir fs !! p = Some i -> i < next_ino fs;
  ok_nolink : forall p q i, dir fs !! p = Some i -> dir fs !! q = Some i -> p = q
}.

Definition is_rename_ok (e : syscall * bool) : bool :=
  match e with
  | (SysRename _ _, true) => true
  | _ => false
  end.

Fixpoint count_renames (tr : list (syscall * bool)) : nat :=
  match tr with
  | [] => 0
  | e :: tr' => (if is_rename_ok e then 1 else 0) + count_renames tr'
  end.

(** The number of renames that have replaced a file so far. *)
Definition renames (fs : FS) : nat := count_renames (trace fs).

(** A writer that has not failed, over an open file positioned at its
    end. *)
Definition synced (w : Writer) (fs : FS) : Prop :=
  werr w = None /\ f_closed (wr w) = false /\
  f_off (wr w) = String.length (content fs (f_ino (wr w))).

(** What a call on a writer does when it is asked to write [s]: it
    touches the writer's inode only and renames nothing; it reports the
    error of a writer that has failed; from a [synced] writer, as long as nothing
    fails, what the file holds followed by what the buffer holds grows by
    [s]; and nothing fails unless the environment makes it. *)
Record wrote (s : string) (w : Writer) (fs : FS)
    (err : option error) (w' : Writer) (fs' : FS) : Prop := mk_wrote {
  wrote_frame : only_ino (f_ino (wr w)) fs fs';
  wrote_ino : f_ino (wr w') = f_ino (wr w);
  wrote_renames : renames fs' = renames fs;
  wrote_err : werr w' = None -> err = None;
  wrote_sticky : werr w <> None -> werr w' <> None;
  wrote_data : synced w fs -> werr w' = None ->
    synced w' fs' /\
    content fs' (f_ino (wr w)) +:+ buf w' = content fs (f_ino (wr w)) +:+ buf w +:+ s;
  wrote_nofault : faults fs = [] -> synced w fs ->
    err = None /\ werr w' = None /\ faults fs' = []
}.

Section StoreNotions.

Context {P R : Type} `{!K8sResource R} `{!GoRuntime}.

(** The throttle of [DumpFullState]: the last dump is less than the
    configured interval away. *)
Definition throttled (now : Z) (k : @K8sStore P R) : Prop :=
  (Time_Sub now (lastFullDump k) < TimeBetweenFullDump (storeConfig k))%Z.

(** The lines of the records [vs], in this order. *)
Definition renderAll (vs : list (string * R)) : list string :=
  (fun kv => ToString kv.2) <$> vs.

(** The text of a full dump of the store. *)
Definition dumpText (k : @K8sStore P R) : string :=
  header k +:+ GoString.concat (renderAll (mapRange (data k))).

(** The step of [DumpFullState] at which filling the scratch file
    failed. *)
Inductive stage : Type := AtWrite | AtFlush | AtSync.

Definition stageMessage (k : @K8sStore P R) (s : stage) : string :=
  match s with
  | AtWrite => "Error writing bytes to file " +:+ tempFileName k
  | AtFlush => "Error flushing buffer"
  | AtSync => "Error syncing file"
  end.

(** What [DumpFullState] does between [os.Create] and the rename, as a
    function of the file system: header, records, [Flush], [Sync]. *)
Definition fill (k : @K8sStore P R) (f : File) (fs : FS)
  : option (stage * error) * Writer * FS :=
  let '(_, w, fs) := WriteString (bufio_NewWriter f) (header k) fs in
  let '(err, w, fs) := writeRecords (mapRange (data k)) w fs in
  match err with
  | Some e => (Some (AtWrite, e), w, fs)
  | None =>
      let '(err, w, fs) := Flush w fs in
      match err with
      | Some e => (Some (AtFlush, e), w, fs)
      | None =>
          let '(err, fs) := File_Sync (wr w) fs in
          match err with
          | Some e => (Some (AtSync, e), w, fs)
          | None => (None, w, fs)
          end
      end
  end.

Definition logSkip : logEntry :=
  (INFO 10, "Last full dump for %s happened %s ago, ignoring it").
Definition logDump : logEntry := (INFO 8, "Doing full dump %d %s").
Definition logTemp : logEntry := (INFO 12, "Creating temp file for full state %s").
Definition logClose : logEntry := (INFO 17, "Closing file %s").

(** The ways through [DumpFullState now], from the state [st]: what
    each returns, and the state it leaves. *)
Inductive dump_path (now : Z) (st : @State P R) : outcome (option error) -> Prop :=
| dump_skip :
    throttled now (store st) ->
    dump_path now st
      (Returns None (mkState (store st) (fsys st) (glog st ++ [logSkip])))
| dump_panic e fs1 :
    ~ throttled now (store st) ->
    os_Create (tempFileName (store st)) (fsys st) = (None, e, fs1) ->
    dump_path now st
      (Panics nilDeref
         (mkState (set_lastFullDump now (store st)) fs1 (glog st ++ [logDump])))
| dump_create_err f e fs1 :
    ~ throttled now (store st) ->
    os_Create (tempFileName (store st)) (fsys st) = (Some f, Some e, fs1) ->
    dump_path now st
      (Returns (Some (Wrapf e ("Error creating temp file " +:+ tempFileName (store st))))
         (mkState (set_lastFullDump now (store st)) fs1
            ((glog st ++ [logDump]) ++ [logTemp])))
| dump_fill_err f fs1 s e w fs2 :
    ~ throttled now (store st) ->
    os_Create (tempFileName (store st)) (fsys st) = (Some f, None, fs1) ->
    fill (store st) f fs1 = (Some (s, e), w, fs2) ->
    dump_path now st
      (Returns (Some (Wrapf e (stageMessage (store st) s)))
         (mkState (set_lastFullDump now (store st)) fs2
            ((glog st ++ [logDump]) ++ [logTemp])))
| dump_rename_err f fs1 w fs2 ec fc fs3 e fs4 :
    ~ throttled now (store st) ->
    os_Create (tempFileName (store st)) (fsys st) = (Some f, None, fs1) ->
    fill (store st) f fs1 = (None, w, fs2) ->
    File_Close (currentFile (store st)) fs2 = (ec, fc, fs3) ->
    os_Rename (tempFileName (store st)) (destFile (store st)) fs3 = (Some e, fs4) ->
    dump_path now st
      (Returns (Some (Wrapf e ("Error moving file from " +:+ tempFileName (store st)
                                 +:+ " to " +:+ destFile (store st))))
         (mkState (set_currentFile fc (set_lastFullDump now (store st))) fs4
            (((glog st ++ [logDump]) ++ [logTemp]) ++ [logClose])))
| dump_ok f fs1 w fs2 ec fc fs3 fs4 :
    ~ throttled now (store st) ->
    os_Create (tempFileName (store st)) (fsys st) = (Some f, None, fs1) ->
    fill (store st) f fs1 = (None, w, fs2) ->
    File_Close (currentFile (store st)) fs2 = (ec, fc, fs3) ->
    os_Rename (tempFileName (store st)) (destFile (store st)) fs3 = (None, fs4) ->
    dump_path now st
      (Returns None
         (mkState (set_currentFile (wr w)
                     (set_currentFile fc (set_lastFullDump now (store st)))) fs4
            (((glog st ++ [logDump]) ++ [logTemp]) ++ [logClose]))).

(** Every key of the cache is one that [resourceKey] produces. *)
Definition keys_ok (k : @K8sStore P R) : Prop :=
  forall key r, data k !! key = Some r -> exists ns name, key = objectKey ns name.

(** What holds of a store and its file system from [NewK8sStore] on. *)
Definition store_inv (st : @State P R) : Prop :=
  fs_ok (fsys st)
  /\ tempFileName (store st) <> destFile (store st)
  /\ keys_ok (store st).

(** [m] keeps [I], also when it panics. *)
Definition preserves (I : @State P R -> Prop) {A : Type} (m : Go A) : Prop :=
  forall st, I st -> I (final (m st)).

(** The store is past its first write and holds, open and positioned at
    its end, the file that the destination names. *)
Definition appending (st : @State P R) : Prop :=
  firstWrite (store st) = false
  /\ f_closed (currentFile (store st)) = false
  /\ f_off (currentFile (store st))
     = String.length (content (fsys st) (f_ino (currentFile (store st))))
  /\ dir (fsys st) !! destFile (store st) = Some (f_ino (currentFile (store st))).

(** The object of [lst] that comes last under the identity [key]. *)
Definition lastListed (key : string) (lst : list (Obj P)) : option (Obj P) :=
  last (filter (fun o => resourceKey o = Some key) lst).

End StoreNotions.

(** * Properties *)

(** ** Byte strings *)

Module GoStringFacts.
Import GoString.

Lemma app_nil_l (t : string) : EmptyString +:+ t = t.
Proof. reflexivity. Qed.

Lemma app_cons (c : ascii) (s t : string) : String c s +:+ t = String c (s +:+ t).
Proof. reflexivity. Qed.

Lemma app_nil_r (s : string) : s +:+ EmptyString = s.
Proof. induction s as [|c s IH]; [reflexivity|]. by rewrite app_cons, IH. Qed.

Lemma app_assoc (a b c : string) : (a +:+ b) +:+ c = a +:+ (b +:+ c).
Proof. induction a as [|x a IH]; [reflexivity|]. by rewrite !app_cons, IH. Qed.

Lemma length_app (a b : string) :
  String.length (a +:+ b) = String.length a + String.length b.
Proof. induction a as [|x a IH]; [reflexivity|]. rewrite app_cons. simpl. by rewrite IH. Qed.

Lemma take_app_length (s t : string) : take (String.length s) (s +:+ t) = s.
Proof. induction s as [|x s IH]; [by destruct t|]. rewrite app_cons. simpl. by rewrite IH. Qed.

Lemma drop_ge (n : nat) (s : string) : String.length s <= n -> drop n s = EmptyString.
Proof.
  revert n. induction s as [|x s IH]; intros [|n] Hn; simpl in *; try reflexivity; try lia.
  apply IH. lia.
Qed.

Lemma take_drop (n : nat) (s : string) : take n s +:+ drop n s = s.
Proof.
  revert n. induction s as [|x s IH]; intros [|n]; simpl; try reflexivity.
  by rewrite app_cons, IH.
Qed.

(** A write at the end of a file appends. *)
Lemma pwrite_end (c d : string) : pwrite c (String.length c) d = c +:+ d.
Proof.
  unfold pwrite. rewrite Nat.sub_diag. simpl zeros.
  rewrite take_app_length, drop_ge by lia. by rewrite app_nil_r.
Qed.

Lemma concat_cons (l : string) (ls : list string) : concat (l :: ls) = l +:+ concat ls.
Proof. reflexivity. Qed.

Lemma concat_app (l1 l2 : list string) : concat (l1 ++ l2) = concat l1 +:+ concat l2.
Proof.
  induction l1 as [|l l1 IH]; [reflexivity|].
  simpl app. by rewrite !concat_cons, IH, app_assoc.
Qed.

Lemma is_line_nonempty (l : string) : is_line l = true -> l <> EmptyString.
Proof. by destruct l. Qed.

(** A line in front of a text is the first line of the text. *)
Lemma lines_from_line (l : string) :
  is_line l = true ->
  forall cur rest, lines_from cur (l +:+ rest) = (cur +:+ l) :: lines_from EmptyString rest.
Proof.
  induction l as [|c l IH]; [discriminate|].
  intros Hl cur rest. rewrite app_cons. simpl lines_from.
  destruct l as [|c' l'].
  - simpl in Hl. rewrite Hl. by rewrite app_nil_l.
  - change (is_line (String c (String c' l')))
      with (negb (Ascii.eqb c newline) && is_line (String c' l')) in Hl.
    apply andb_true_iff in Hl as [Hc Hl].
    apply negb_true_iff in Hc. rewrite Hc.
    rewrite (IH Hl). by rewrite app_assoc.
Qed.

(** A text made of lines splits into these lines. *)
Lemma lines_concat (ls : list string) :
  Forall (fun l => is_line l = true) ls -> lines (concat ls) = ls.
Proof.
  induction 1 as [|l ls Hl _ IH]; [reflexivity|].
  unfold lines. rewrite concat_cons, (lines_from_line l Hl). by rewrite app_nil_l; f_equal.
Qed.

End GoStringFacts.

(** ** Time *)

Lemma Time_Sub_lt (t u T : Z) :
  (minDuration < T)%Z -> (t - u < T)%Z -> (Time_Sub t u < T)%Z.
Proof.
  unfold Time_Sub. intros HT Hd.
  destruct (Z.ltb_spec maxDuration (t - u)); [lia|].
  destruct (Z.ltb_spec (t - u) minDuration); lia.
Qed.

Lemma Time_Sub_ge (t u T : Z) :
  (T <= maxDuration)%Z -> (T <= t - u)%Z -> (T <= Time_Sub t u)%Z.
Proof.
  unfold Time_Sub. intros HT Hd.
  destruct (Z.ltb_spec maxDuration (t - u)); [lia|].
  destruct (Z.ltb_spec (t - u) minDuration); [|lia].
  unfold isDuration, minDuration, maxDuration in *. lia.
Qed.

(** ** The file system *)

Lemma only_ino_refl (i : nat) (fs : FS) : only_ino i fs fs.
Proof. by repeat split. Qed.

Lemma only_ino_trans (i : nat) (fs1 fs2 fs3 : FS) :
  only_ino i fs1 fs2 -> only_ino i fs2 fs3 -> only_ino i fs1 fs3.
Proof.
  intros (Hd1 & Hn1 & Hi1) (Hd2 & Hn2 & Hi2). repeat split; [congruence..|].
  intros j Hj. by rewrite Hi2, Hi1.
Qed.

Lemma only_ino_read (i : nat) (fs fs' : FS) (p : string) :
  only_ino i fs fs' -> dir fs !! p <> Some i -> read_path fs' p = read_path fs p.
Proof.
  intros (Hd & _ & Hi) Hp. unfold read_path, content. rewrite Hd.
  destruct (dir fs !! p) as [j|]; [|reflexivity]. simpl.
  rewrite Hi; [reflexivity|congruence].
Qed.

Lemma only_ino_ok (i : nat) (fs fs' : FS) : only_ino i fs fs' -> fs_ok fs -> fs_ok fs'.
Proof.
  intros (Hd & Hn & _) [Hb Hl]. split; rewrite ?Hd, ?Hn; [exact Hb|exact Hl].
Qed.

Lemma count_renames_app (t1 t2 : list (syscall * bool)) :
  count_renames (t1 ++ t2) = count_renames t1 + count_renames t2.
Proof. induction t1 as [|e t1 IH]; simpl; [reflexivity|]. rewrite IH. lia. Qed.

Lemma renames_enter (c : syscall) (ok : bool) (fs : FS) :
  renames (enter c ok fs) = renames fs + (if is_rename_ok (c, ok) then 1 else 0).
Proof. unfold renames, enter. simpl. rewrite count_renames_app. simpl. lia. Qed.

Lemma content_set_inode (i : nat) (c : string) (fs : FS) :
  content (set_inode i c fs) i = c.
Proof. unfold content, set_inode. simpl. by rewrite lookup_insert_eq. Qed.

(** [File_Write] touches the inode of its file only. *)
Lemma File_Write_frame (f : File) (d : string) (fs : FS) n err f' fs' :
  File_Write f d fs = (n, err, f', fs') ->
  only_ino (f_ino f) fs fs' /\ f_ino f' = f_ino f /\ f_name f' = f_name f /\
  f_closed f' = f_closed f /\ renames fs' = renames fs.
Proof.
  unfold File_Write. intros H.
  destruct (f_closed f) eqn:Hc.
  { inversion H; subst. repeat split; auto. }
  destruct (next_fault fs); inversion H; subst; clear H; simpl;
    (repeat split; auto;
     [ intros j Hj; simpl; by rewrite lookup_insert_ne
     | unfold renames; simpl; rewrite count_renames_app; simpl; lia ]).
Qed.

(** An unhindered write at the end of an open file appends all of [d]. *)
Lemma File_Write_append (f : File) (d : string) (fs : FS) n err f' fs' :
  File_Write f d fs = (n, err, f', fs') ->
  f_closed f = false -> f_off f = String.length (content fs (f_ino f)) ->
  err = None ->
  n = String.length d /\ content fs' (f_ino f) = content fs (f_ino f) +:+ d /\
  f_off f' = String.length (content fs' (f_ino f)) /\ f_closed f' = false.
Proof.
  unfold File_Write. intros H Hc Ho He. rewrite Hc in H.
  destruct (next_fault fs); inversion H; subst; clear H; [|discriminate].
  rewrite content_set_inode. simpl. rewrite Ho, GoStringFacts.pwrite_end.
  rewrite GoStringFacts.length_app. auto.
Qed.

(** Without faults to come, a write on an open file succeeds. *)
Lemma File_Write_nofault (f : File) (d : string) (fs : FS) n err f' fs' :
  File_Write f d fs = (n, err, f', fs') ->
  f_closed f = false -> faults fs = [] -> err = None /\ faults fs' = [].
Proof.
  unfold File_Write, next_fault. intros H Hc Hf. rewrite Hc, Hf in H.
  inversion H; subst. simpl. by rewrite Hf.
Qed.

(** ** [bufio.Writer] *)

Lemma synced_buf (w : Writer) (b : string) (fs : FS) :
  synced (mkWriter (wr w) b (werr w)) fs <-> synced w fs.
Proof. reflexivity. Qed.

Lemma Flush_wrote (w : Writer) (fs : FS) err w' fs' :
  Flush w fs = (err, w', fs') -> wrote EmptyString w fs err w' fs'.
Proof.
  unfold Flush. intros H.
  destruct (werr w) as [e|] eqn:He.
  { inversion H; subst; clear H.
    split; try done; try apply only_ino_refl; rewrite ?He; try done.
    intros _ (Hs & _). congruence. }
  destruct (buf w) as [|c b] eqn:Hb.
  { inversion H; subst; clear H.
    split; try done; try apply only_ino_refl.
    intros Hs _. split; [done|]. by rewrite Hb, !GoStringFacts.app_nil_r. }
  destruct (File_Write (wr w) (String c b) fs) as [[[n e0] f] fs1] eqn:HW.
  destruct (File_Write_frame _ _ _ _ _ _ _ HW) as (Hfr & Hino & _ & Hcl & Hrn).
  destruct e0 as [e|].
  { inversion H; subst; clear H. simpl.
    split; simpl; try done.
    intros Hf (_ & Hc & _).
    destruct (File_Write_nofault _ _ _ _ _ _ _ HW Hc Hf) as [? _]. discriminate. }
  destruct (n <? String.length (String c b)) eqn:Hn.
  { inversion H; subst; clear H.
    split; simpl; try done.
    intros Hf (_ & Hc & Ho).
    destruct (File_Write_append _ _ _ _ _ _ _ HW Hc Ho eq_refl) as (-> & _).
    apply Nat.ltb_lt in Hn. lia. }
  inversion H; subst; clear H.
  split; simpl; try done.
  - intros (_ & Hc & Ho) _.
    destruct (File_Write_append _ _ _ _ _ _ _ HW Hc Ho eq_refl) as (_ & Hct & Hoff & Hcl').
    split.
    + split; [done|]. simpl. by rewrite Hino.
    + by rewrite Hct, Hb, !GoStringFacts.app_nil_r.
  - intros Hf (_ & Hc & _).
    destruct (File_Write_nofault _ _ _ _ _ _ _ HW Hc Hf) as [_ ?]. done.
Qed.

(** A flush that reports no error leaves a writer without error and an
    empty buffer. *)
Lemma Flush_ok (w : Writer) (fs : FS) w' fs' :
  Flush w fs = (None, w', fs') -> werr w' = None /\ buf w' = EmptyString.
Proof.
  unfold Flush. intros H.
  destruct (werr w) as [e|] eqn:He; [discriminate|].
  destruct (buf w) as [|c b] eqn:Hb.
  { inversion H; subst. done. }
  destruct (File_Write (wr w) (String c b) fs) as [[[n e0] f] fs1].
  destruct e0; [discriminate|].
  destruct (n <? String.length (String c b)); [discriminate|].
  inversion H; subst. done.
Qed.

(** Two calls in a row; what the first returned is not looked at. *)
Lemma wrote_seq (s1 s2 : string) w fs e1 w1 fs1 err w2 fs2 :
  wrote s1 w fs e1 w1 fs1 -> wrote s2 w1 fs1 err w2 fs2 ->
  wrote (s1 +:+ s2) w fs err w2 fs2.
Proof.
  intros [F1 I1 R1 E1 S1 D1 N1] [F2 I2 R2 E2 S2 D2 N2].
  rewrite I1 in F2, I2, D2.
  split; try congruence; try tauto.
  - eapply only_ino_trans; eauto.
  - intros Hs He.
    destruct (werr w1) as [e|] eqn:Hw1; [exfalso; by apply S2|].
    destruct (D1 Hs eq_refl) as [Hs1 Hc1].
    destruct (D2 Hs1 He) as [Hs2 Hc2]. split; [done|].
    rewrite Hc2, <- GoStringFacts.app_assoc, Hc1.
    by rewrite !GoStringFacts.app_assoc.
Qed.

(** A call that failed ends the sequence. *)
Lemma wrote_stop (s1 s2 : string) w fs e w1 fs1 :
  wrote s1 w fs (Some e) w1 fs1 -> wrote (s1 +:+ s2) w fs (Some e) w1 fs1.
Proof.
  intros [F1 I1 R1 E1 S1 D1 N1]. split; try done.
  intros _ He. by specialize (E1 He).
Qed.

(** The loop of [WriteString] moves bytes from the string into the buffer
    and the file, and loses none. *)
Lemma WriteString_loop_spec (fuel : nat) :
  forall b s fs b' s' fs',
  WriteString_loop fuel b s fs = (b', s', fs') ->
  only_ino (f_ino (wr b)) fs fs' /\ f_ino (wr b') = f_ino (wr b) /\
  renames fs' = renames fs /\
  (werr b <> None -> werr b' <> None) /\
  (synced b fs -> werr b' = None ->
     synced b' fs' /\
     content fs' (f_ino (wr b)) +:+ buf b' +:+ s'
       = content fs (f_ino (wr b)) +:+ buf b +:+ s) /\
  (faults fs = [] -> synced b fs -> werr b' = None /\ faults fs' = []).
Proof.
  induction fuel as [|fuel IH]; intros b s fs b' s' fs' H; simpl in H.
  { inversion H; subst. split_and!; try done; try apply only_ino_refl.
    by intros ? (? & _). }
  destruct ((Available b <? String.length s) && bool_decide (werr b = None)) eqn:Hc.
  2:{ inversion H; subst. split_and!; try done; try apply only_ino_refl.
      by intros ? (? & _). }
  set (b1 := mkWriter (wr b) (buf b +:+ GoString.take (Available b) s) (werr b)) in H.
  destruct (Flush b1 fs) as [[e b2] fs2] eqn:HF.
  destruct (Flush_wrote _ _ _ _ _ HF) as [F1 I1 R1 E1 S1 D1 N1].
  simpl in F1, I1, D1.
  destruct (IH _ _ _ _ _ _ H) as (F2 & I2 & R2 & S2 & D2 & N2).
  rewrite I1 in F2, I2, D2.
  split_and!; try congruence.
  - eapply only_ino_trans; eauto.
  - intros Hw. apply S2, S1. exact Hw.
  - intros Hs He.
    destruct (werr b2) as [e2|] eqn:Hw2; [exfalso; by apply S2|].
    destruct (D1 Hs eq_refl) as [Hs1 Hc1].
    destruct (D2 Hs1 He) as [Hs2 Hc2]. split; [done|]. rewrite Hc2.
    rewrite <- GoStringFacts.app_assoc, Hc1. subst b1. simpl.
    rewrite GoStringFacts.app_nil_r, !GoStringFacts.app_assoc.
    by rewrite GoStringFacts.take_drop.
  - intros Hf Hs. destruct (N1 Hf Hs) as (_ & Hw1 & Hf1).
    apply N2; [done|]. by apply D1.
Qed.

Lemma WriteString_wrote (w : Writer) (s : string) (fs : FS) err w' fs' :
  WriteString w s fs = (err, w', fs') -> wrote s w fs err w' fs'.
Proof.
  unfold WriteString. intros H.
  destruct (WriteString_loop (String.length s + 2) w s fs) as [[b1 s1] fs1] eqn:HL.
  destruct (WriteString_loop_spec _ _ _ _ _ _ _ HL) as (F & I & Rn & S & D & N).
  destruct (werr b1) as [e|] eqn:Hw; inversion H; subst; clear H.
  - apply mk_wrote; [exact F|exact I|exact Rn|congruence|congruence|congruence|].
    intros Hf Hs. destruct (N Hf Hs). congruence.
  - apply mk_wrote; simpl; [exact F|exact I|exact Rn|done| | |].
    + intros Hw0 _. by apply S.
    + intros Hs _. destruct (D Hs eq_refl) as [(_ & Hc & Ho) Hct]. by split.
    + intros Hf Hs. by destruct (N Hf Hs).
Qed.

Lemma length_drop (n : nat) (s : string) :
  String.length (GoString.drop n s) = String.length s - n.
Proof.
  revert n. induction s as [|c s IH]; intros [|n]; simpl; try reflexivity. apply IH.
Qed.

Lemma WriteString_loop_failed (fuel : nat) (b : Writer) (s : string) (fs : FS) :
  werr b <> None -> WriteString_loop fuel b s fs = (b, s, fs).
Proof.
  intros Hw. destruct fuel as [|fuel]; [reflexivity|]. simpl.
  rewrite bool_decide_eq_false_2 by done. by rewrite andb_false_r.
Qed.

(** The fuel [WriteString] gives its loop is enough: the loop ends as it
    does in Go, with a string that fits the buffer or a failed writer. *)
Lemma WriteString_loop_exit (fuel : nat) :
  forall b s fs b' s' fs',
  String.length s + (if Available b =? 0 then 1 else 0) < fuel ->
  WriteString_loop fuel b s fs = (b', s', fs') ->
  String.length s' <= Available b' \/ werr b' <> None.
Proof.
  induction fuel as [|fuel IH]; intros b s fs b' s' fs' Hm H; [lia|].
  simpl in H.
  destruct (Available b <? String.length s) eqn:Hlt; simpl in H.
  2:{ inversion H; subst. left. by apply Nat.ltb_ge. }
  destruct (bool_decide (werr b = None)) eqn:Hw.
  2:{ inversion H; subst. right. by apply bool_decide_eq_false in Hw. }
  apply Nat.ltb_lt in Hlt.
  set (b1 := mkWriter (wr b) (buf b +:+ GoString.take (Available b) s) (werr b)) in H.
  destruct (Flush b1 fs) as [[e b2] fs2] eqn:HF.
  destruct e as [e|].
  - assert (Hw2 : werr b2 <> None).
    { intros Hn. pose proof (wrote_err _ _ _ _ _ _ (Flush_wrote _ _ _ _ _ HF) Hn). discriminate. }
    rewrite (WriteString_loop_failed _ _ _ _ Hw2) in H. inversion H; subst. by right.
  - destruct (Flush_ok _ _ _ _ HF) as [_ Hb2].
    apply (IH _ _ _ _ _ _) in H; [done|].
    replace (Available b2) with bufSize
      by (unfold Available; rewrite Hb2; symmetry; apply Nat.sub_0_r).
    rewrite length_drop. change (bufSize =? 0) with false.
    destruct (Available b =? 0) eqn:Ha.
    + apply Nat.eqb_eq in Ha. lia.
    + apply Nat.eqb_neq in Ha. lia.
Qed.

Lemma WriteString_fuel (w : Writer) (s : string) (fs : FS) b' s' fs' :
  WriteString_loop (String.length s + 2) w s fs = (b', s', fs') ->
  String.length s' <= Available b' \/ werr b' <> None.
Proof. apply WriteString_loop_exit. destruct (Available w =? 0); lia. Qed.

(** ** System calls *)

Lemma same_files_refl (fs : FS) : same_files fs fs.
Proof. by repeat split. Qed.

Lemma same_files_only (i : nat) (fs fs' : FS) : same_files fs fs' -> only_ino i fs fs'.
Proof. intros (Hd & Hn & Hi). repeat split; [done..|]. intros j _. by rewrite Hi. Qed.

Lemma same_files_enter (c : syscall) (ok : bool) (fs : FS) : same_files fs (enter c ok fs).
Proof. by repeat split. Qed.

Lemma same_files_read (fs fs' : FS) (p : string) :
  same_files fs fs' -> read_path fs' p = read_path fs p.
Proof. intros (Hd & _ & Hi). unfold read_path, content. by rewrite Hd, Hi. Qed.

Lemma same_files_ok (fs fs' : FS) : same_files fs fs' -> fs_ok fs -> fs_ok fs'.
Proof. intros H. apply (only_ino_ok 0). by apply same_files_only. Qed.

Lemma os_Create_fail (path : string) (fs : FS) e fs' :
  os_Create path fs = (None, e, fs') ->
  next_fault fs <> IoOk /\ fs' = enter (SysOpen path) false fs.
Proof.
  unfold os_Create. destruct (next_fault fs); [|by inversion 1].
  by destruct (dir (enter (SysOpen path) true fs) !! path).
Qed.

Lemma os_Create_faulty (path : string) (fs : FS) :
  next_fault fs <> IoOk ->
  os_Create path fs = (None, Some (PathError "open" path EIO), enter (SysOpen path) false fs).
Proof. unfold os_Create. by destruct (next_fault fs). Qed.

(** [os.Create] returns a file or an error, never both. *)
Lemma os_Create_not_both (path : string) (fs : FS) f e fs' :
  os_Create path fs <> (Some f, Some e, fs').
Proof.
  unfold os_Create. destruct (next_fault fs); [|done].
  by destruct (dir (enter (SysOpen path) true fs) !! path).
Qed.

(** The file [os.Create] opens is empty, named [path], and the only
    change to what any other path shows. *)
Lemma os_Create_ok (path : string) (fs : FS) f fs' :
  os_Create path fs = (Some f, None, fs') ->
  f = mkFile path (f_ino f) 0 false /\
  dir fs' !! path = Some (f_ino f) /\
  content fs' (f_ino f) = EmptyString /\
  renames fs' = renames fs /\
  faults fs' = tail (faults fs) /\
  (fs_ok fs -> fs_ok fs' /\
     forall q, q <> path ->
       read_path fs' q = read_path fs q /\ dir fs' !! q <> Some (f_ino f)).
Proof.
  unfold os_Create. destruct (next_fault fs); [|discriminate].
  simpl dir. simpl next_ino.
  destruct (dir fs !! path) as [i|] eqn:Hp; intros H; inversion H; subst; clear H; simpl.
  - split_and!; try done.
    + apply content_set_inode.
    + unfold renames. simpl. rewrite count_renames_app. simpl. lia.
    + intros [Hb Hl]. split; [by split|].
      intros q Hq. split.
      * unfold read_path, content. simpl.
        destruct (dir fs !! q) as [j|] eqn:Hj; [|done]. simpl.
        rewrite lookup_insert_ne; [done|]. intros ->. apply Hq. by eapply Hl.
      * intros Hj. apply Hq. by eapply Hl.
  - split_and!; try done.
    + by rewrite lookup_insert_eq.
    + unfold content. simpl. by rewrite lookup_insert_eq.
    + unfold renames. simpl. rewrite count_renames_app. simpl. lia.
    + intros [Hb Hl]. split; [split; simpl|].
      * intros p i. destruct (decide (p = path)) as [->|Hne].
        -- rewrite lookup_insert_eq. intros [= <-]. lia.
        -- rewrite lookup_insert_ne by done. intros Hi. apply Hb in Hi. lia.
      * intros p q i.
        destruct (decide (p = path)) as [->|Hp']; destruct (decide (q = path)) as [->|Hq'];
          rewrite ?lookup_insert_eq, ?lookup_insert_ne by done; try done.
        -- intros [= <-] Hi. apply Hb in Hi. lia.
        -- intros Hi [= <-]. apply Hb in Hi. lia.
        -- apply Hl.
      * intros q Hq. unfold read_path, content. simpl.
        rewrite lookup_insert_ne by done. split.
        -- destruct (dir fs !! q) as [j|] eqn:Hj; [|done]. simpl.
           rewrite lookup_insert_ne; [done|]. apply Hb in Hj. lia.
        -- intros Hj. apply Hb in Hj. lia.
Qed.

Lemma os_Create_nofault (path : string) (fs : FS) :
  faults fs = [] ->
  exists f fs', os_Create path fs = (Some f, None, fs') /\ faults fs' = [].
Proof.
  intros Hf. unfold os_Create, next_fault. rewrite Hf.
  destruct (dir (enter (SysOpen path) true fs) !! path); eexists _, _; (split; [done|]);
    simpl; by rewrite Hf.
Qed.

Lemma File_Sync_same (f : File) (fs : FS) e fs' :
  File_Sync f fs = (e, fs') -> same_files fs fs' /\ renames fs' = renames fs.
Proof.
  unfold File_Sync. destruct (f_closed f); [|destruct (next_fault fs)];
    intros H; inversion H; subst; (split; [by repeat split|]); try done;
    rewrite renames_enter; simpl; lia.
Qed.

Lemma File_Sync_nofault (f : File) (fs : FS) :
  f_closed f = false -> faults fs = [] ->
  exists fs', File_Sync f fs = (None, fs') /\ faults fs' = [].
Proof.
  intros Hc Hf. unfold File_Sync, next_fault. rewrite Hc, Hf.
  eexists. split; [done|]. simpl. by rewrite Hf.
Qed.

Lemma File_Close_same (f : File) (fs : FS) e f' fs' :
  File_Close f fs = (e, f', fs') ->
  same_files fs fs' /\ renames fs' = renames fs /\
  f_ino f' = f_ino f /\ f_closed f' = true /\
  (faults fs = [] -> faults fs' = []).
Proof.
  unfold File_Close. destruct (f_closed f) eqn:Hc; [|destruct (next_fault fs)];
    intros H; inversion H; subst; (split; [by repeat split|]);
    rewrite ?renames_enter; simpl; split_and!; try done; try lia;
    by intros ->.
Qed.

(** A rename that fails changes no file and no name. *)
Lemma os_Rename_fail (old new : string) (fs : FS) e fs' :
  os_Rename old new fs = (Some e, fs') ->
  same_files fs fs' /\ renames fs' = renames fs.
Proof.
  unfold os_Rename. destruct (next_fault fs); [destruct (dir fs !! old)|];
    intros H; inversion H; subst; (split; [by repeat split|]);
    rewrite renames_enter; simpl; lia.
Qed.

(** A rename that succeeds gives the inode of [old] the name [new]. *)
Lemma os_Rename_ok (old new : string) (fs : FS) fs' :
  os_Rename old new fs = (None, fs') ->
  exists i, dir fs !! old = Some i /\
    dir fs' = <[new := i]> (delete old (dir fs)) /\
    inodes fs' = inodes fs /\ next_ino fs' = next_ino fs /\
    renames fs' = S (renames fs) /\ faults fs' = tail (faults fs).
Proof.
  unfold os_Rename. destruct (next_fault fs); [|discriminate].
  destruct (dir fs !! old) as [i|]; [|discriminate].
  intros H; inversion H; subst. exists i. split_and!; try done.
  unfold renames. simpl. rewrite count_renames_app. simpl. lia.
Qed.

Lemma os_Rename_nofault (old new : string) (fs : FS) (i : nat) :
  faults fs = [] -> dir fs !! old = Some i ->
  exists fs', os_Rename old new fs = (None, fs') /\ faults fs' = [].
Proof.
  intros Hf Hi. unfold os_Rename, next_fault. rewrite Hf, Hi.
  eexists. split; [done|]. simpl. by rewrite Hf.
Qed.

Lemma os_Rename_fs_ok (old new : string) (fs : FS) e fs' :
  os_Rename old new fs = (e, fs') -> fs_ok fs -> fs_ok fs'.
Proof.
  destruct e as [e|]; intros H.
  { apply same_files_ok. by apply (os_Rename_fail _ _ _ _ _ H). }
  destruct (os_Rename_ok _ _ _ _ H) as (i & Hi & Hd & _ & Hn & _).
  intros [Hb Hl]. split; rewrite Hd, ?Hn.
  - intros p j. destruct (decide (p = new)) as [->|Hp].
    + rewrite lookup_insert_eq. intros [= <-]. by eapply Hb.
    + rewrite lookup_insert_ne by done. intros Hj.
      apply lookup_delete_Some in Hj as [_ Hj]. by eapply Hb.
  - intros p q j.
    destruct (decide (p = new)) as [->|Hp]; destruct (decide (q = new)) as [->|Hq];
      rewrite ?lookup_insert_eq, ?lookup_insert_ne by done; try done.
    + intros [= <-] Hj. apply lookup_delete_Some in Hj as [Hne Hj].
      exfalso. apply Hne. by eapply Hl.
    + intros Hj [= <-]. apply lookup_delete_Some in Hj as [Hne Hj].
      exfalso. apply Hne. by eapply Hl.
    + intros Hp' Hq'. apply lookup_delete_Some in Hp' as [_ Hp'].
      apply lookup_delete_Some in Hq' as [_ Hq']. by eapply Hl.
Qed.

Lemma os_MkdirAll_same (path : string) (fs : FS) e fs' :
  os_MkdirAll path fs = (e, fs') -> same_files fs fs'.
Proof.
  unfold os_MkdirAll. destruct (next_fault fs); intros H; inversion H; by repeat split.
Qed.

(** ** [DumpFullState] *)

Section DumpFacts.

Context {P R : Type} {KR : K8sResource R} {RT : GoRuntime}.
Implicit Types (st : @State P R) (k : @K8sStore P R).

(** [DumpFullState] takes one of the ways of [dump_path]. *)
Lemma DumpFullState_path (now : Z) st : dump_path now st (DumpFullState now st).
Proof.
  unfold DumpFullState, mbind, Go_bind, getStore. simpl.
  destruct (bool_decide_reflect
              (Time_Sub now (lastFullDump (store st))
               < TimeBetweenFullDump (storeConfig (store st)))%Z) as [Ht|Ht].
  { by apply dump_skip. }
  unfold sys at 1. simpl.
  destruct (os_Create (tempFileName (store st)) (fsys st)) as [[[f|] e] fs1] eqn:HC;
    simpl; [|by eapply dump_panic].
  destruct e as [e|]; [by eapply dump_create_err|].
  pose proof (fun s e w fs2 => dump_fill_err now st f fs1 s e w fs2 Ht HC) as Hfill.
  pose proof (fun w fs2 => dump_rename_err now st f fs1 w fs2) as Hren.
  pose proof (fun w fs2 => dump_ok now st f fs1 w fs2) as Hok.
  unfold fill in *. unfold sys. simpl.
  destruct (WriteString (bufio_NewWriter f) (header (store st)) fs1) as [[e0 w1] fs2].
  simpl.
  destruct (writeRecords (mapRange (data (store st))) w1 fs2) as [[[e|] w2] fs3]; simpl.
  { by apply (Hfill AtWrite e w2 fs3). }
  destruct (Flush w2 fs3) as [[[e|] w3] fs4]; simpl.
  { by apply (Hfill AtFlush e w3 fs4). }
  destruct (File_Sync (wr w3) fs4) as [[e|] fs5]; simpl.
  { by apply (Hfill AtSync e w3 fs5). }
  unfold currentFile_Close. simpl.
  destruct (File_Close (currentFile (store st)) fs5) as [[ec fc] fs6] eqn:HCl. simpl.
  destruct (os_Rename (tempFileName (store st)) (destFile (store st)) fs6)
    as [[e|] fs7] eqn:HR; simpl.
  - by eapply Hren.
  - by eapply Hok.
Qed.

End DumpFacts.

Section FillFacts.

Context {P R : Type} {KR : K8sResource R} {RT : GoRuntime}.
Implicit Types (st : @State P R) (k : @K8sStore P R).

Lemma wrote_nil (w : Writer) (fs : FS) : wrote EmptyString w fs None w fs.
Proof.
  apply mk_wrote; [apply only_ino_refl|done|done|done|done| |].
  - intros Hs _. split; [done|]. by rewrite !GoStringFacts.app_nil_r.
  - by intros Hf (? & _).
Qed.

Lemma writeRecords_wrote (vs : list (string * R)) :
  forall w fs err w' fs',
  writeRecords vs w fs = (err, w', fs') ->
  wrote (GoString.concat (renderAll vs)) w fs err w' fs'.
Proof.
  induction vs as [|[key v] vs IH]; intros w fs err w' fs' H; simpl in H.
  { inversion H; subst. apply wrote_nil. }
  destruct (WriteString w (ToString v) fs) as [[e w1] fs1] eqn:HW.
  apply WriteString_wrote in HW.
  change (GoString.concat (renderAll ((key, v) :: vs)))
    with (ToString v +:+ GoString.concat (renderAll vs)).
  destruct e as [e|].
  - inversion H; subst. by apply wrote_stop.
  - eapply wrote_seq; [exact HW|]. by apply IH.
Qed.

(** Filling the scratch file: only its inode changes; when no step
    fails the file ends with the text of the dump, all of it on disk. *)
Lemma fill_spec k (f : File) (fs : FS) r w fs' :
  fill k f fs = (r, w, fs') ->
  only_ino (f_ino f) fs fs' /\ f_ino (wr w) = f_ino f /\
  renames fs' = renames fs /\
  (r = None -> f_closed f = false ->
   f_off f = String.length (content fs (f_ino f)) ->
   content fs' (f_ino f) = content fs (f_ino f) +:+ dumpText k /\
   synced w fs' /\ buf w = EmptyString) /\
  (faults fs = [] -> f_closed f = false ->
   f_off f = String.length (content fs (f_ino f)) ->
   r = None /\ faults fs' = []).
Proof.
  unfold fill. intros H.
  destruct (WriteString (bufio_NewWriter f) (header k) fs) as [[e0 w1] fs1] eqn:H1.
  destruct (writeRecords (mapRange (data k)) w1 fs1) as [[e1 w2] fs2] eqn:H2.
  apply WriteString_wrote in H1. apply writeRecords_wrote in H2.
  pose proof (wrote_seq _ _ _ _ _ _ _ _ _ _ H1 H2) as H12. clear H1 H2.
  assert (Hsy : f_closed f = false ->
                f_off f = String.length (content fs (f_ino f)) ->
                synced (bufio_NewWriter f) fs) by (by intros; split).
  destruct e1 as [e1|].
  { inversion H; subst. destruct H12 as [F I Rn E S D N]. simpl in *.
    split_and!; try done. intros Hf Hc Ho. by destruct (N Hf (Hsy Hc Ho)). }
  destruct (Flush w2 fs2) as [[e2 w3] fs3] eqn:H3.
  pose proof (Flush_wrote _ _ _ _ _ H3) as HF.
  pose proof (wrote_seq _ _ _ _ _ _ _ _ _ _ H12 HF) as H123. clear H12 HF.
  destruct H123 as [F I Rn E S D N]. simpl in *.
  destruct e2 as [e2|].
  { inversion H; subst.
    split_and!; try done. intros Hf Hc Ho. by destruct (N Hf (Hsy Hc Ho)). }
  destruct (Flush_ok _ _ _ _ H3) as [Hw3 Hb3].
  destruct (File_Sync (wr w3) fs3) as [e3 fs4] eqn:H4.
  destruct (File_Sync_same _ _ _ _ H4) as [Hsame Hrn4].
  assert (Hfr : only_ino (f_ino f) fs fs4).
  { eapply only_ino_trans; [exact F|]. by apply same_files_only. }
  assert (Hct : content fs4 (f_ino f) = content fs3 (f_ino f)).
  { unfold content. by destruct Hsame as (_ & _ & ->). }
  destruct e3 as [e3|]; inversion H; subst; clear H.
  { split_and!; try done; [congruence|].
    intros Hf Hc Ho. destruct (N Hf (Hsy Hc Ho)) as (_ & _ & Hf3).
    destruct (D (Hsy Hc Ho) Hw3) as [(_ & Hc3 & _) _].
    destruct (File_Sync_nofault _ _ Hc3 Hf3) as (fsx & Heq & _). congruence. }
  split_and!; try done; [congruence| |].
  - intros _ Hc Ho. destruct (D (Hsy Hc Ho) Hw3) as [(_ & Hc3 & Ho3) Hd].
    rewrite Hb3, GoStringFacts.app_nil_r in Hd.
    split_and!.
    + rewrite Hct, Hd. unfold dumpText.
      by rewrite GoStringFacts.app_nil_l, !GoStringFacts.app_nil_r.
    + split; [done|]. split; [done|]. rewrite I. rewrite I in Ho3. by rewrite Hct.
    + done.
  - intros Hf Hc Ho. destruct (N Hf (Hsy Hc Ho)) as (_ & _ & Hf3).
    destruct (D (Hsy Hc Ho) Hw3) as [(_ & Hc3 & _) _].
    destruct (File_Sync_nofault _ _ Hc3 Hf3) as (fsx & Heq & Hf4).
    rewrite H4 in Heq. by inversion Heq; subst.
Qed.

End FillFacts.

Section DumpProps.

Context {P R : Type} {KR : K8sResource R} {RT : GoRuntime}.
Implicit Types (st : @State P R) (k : @K8sStore P R).

(** A dump that is throttled only logs. *)
Lemma DumpFullState_throttled (now : Z) st :
  throttled now (store st) ->
  DumpFullState now st
  = Returns None (mkState (store st) (fsys st) (glog st ++ [logSkip])).
Proof. intros Ht. by destruct (DumpFullState_path now st). Qed.

(** A dump that is not throttled records [now], whatever comes next. *)
Lemma DumpFullState_stamp (now : Z) st :
  ~ throttled now (store st) ->
  lastFullDump (store (final (DumpFullState now st))) = now.
Proof. intros Ht. by destruct (DumpFullState_path now st). Qed.

(** The cache is not a concern of [DumpFullState]. *)
Lemma DumpFullState_data (now : Z) st :
  data (store (final (DumpFullState now st))) = data (store st)
  /\ firstWrite (store (final (DumpFullState now st))) = firstWrite (store st)
  /\ header (store (final (DumpFullState now st))) = header (store st)
  /\ destFile (store (final (DumpFullState now st))) = destFile (store st)
  /\ tempFileName (store (final (DumpFullState now st))) = tempFileName (store st)
  /\ storeConfig (store (final (DumpFullState now st))) = storeConfig (store st)
  /\ resourceCtor (store (final (DumpFullState now st))) = resourceCtor (store st).
Proof. by destruct (DumpFullState_path now st). Qed.

(** When [os.Create] fails, [DumpFullState] panics: the file it asks
    for its name is [nil]. *)
Lemma DumpFullState_create_failure (now : Z) st :
  ~ throttled now (store st) -> next_fault (fsys st) <> IoOk ->
  DumpFullState now st
  = Panics nilDeref
      (mkState (set_lastFullDump now (store st))
         (enter (SysOpen (tempFileName (store st))) false (fsys st))
         (glog st ++ [logDump])).
Proof.
  intros Ht Hf.
  pose proof (os_Create_faulty (tempFileName (store st)) _ Hf) as HC.
  destruct (DumpFullState_path now st); congruence.
Qed.

(** A dump that goes through: the destination shows the text of the
    dump, one rename has been made, and the store holds the file that is
    now at the destination, positioned at its end. *)
Lemma DumpFullState_success (now : Z) st st' :
  ~ throttled now (store st) ->
  DumpFullState now st = Returns None st' ->
  read_path (fsys st') (destFile (store st)) = Some (dumpText (store st))
  /\ renames (fsys st') = S (renames (fsys st))
  /\ dir (fsys st') !! destFile (store st) = Some (f_ino (currentFile (store st')))
  /\ f_closed (currentFile (store st')) = false
  /\ f_off (currentFile (store st'))
     = String.length (content (fsys st') (f_ino (currentFile (store st'))))
  /\ (tempFileName (store st) <> destFile (store st) ->
      dir (fsys st') !! tempFileName (store st) = None).
Proof.
  intros Ht Hr.
  destruct (DumpFullState_path now st)
    as [| | | | |f fs1 w fs2 ec fc fs3 fs4 _ HC HF HCl HR]; try congruence.
  inversion Hr; subst; clear Hr. simpl.
  destruct (os_Create_ok _ _ _ _ HC) as (Hf & Hd1 & Hc1 & Hr1 & _ & _).
  destruct (fill_spec _ _ _ _ _ _ HF) as (Hfr & Hi & Hr2 & Hdat & _).
  rewrite Hf in Hdat. simpl in Hdat.
  destruct Hdat as (Hc2 & (_ & Hcl2 & Ho2) & _); [done|done|by rewrite Hc1|].
  destruct (File_Close_same _ _ _ _ _ HCl) as ((Hd3 & _ & Hi3) & Hr3 & _).
  destruct (os_Rename_ok _ _ _ _ HR) as (j & Hj & Hd4 & Hi4 & _ & Hr4 & _).
  destruct Hfr as (Hd2 & _ & _).
  rewrite Hd3, Hd2, Hd1 in Hj. injection Hj as <-.
  assert (Hct : content fs4 (f_ino f) = dumpText (store st)).
  { unfold content. rewrite Hi4, Hi3. fold (content fs2 (f_ino f)).
    by rewrite Hc2, Hc1. }
  split_and!.
  - unfold read_path. rewrite Hd4, lookup_insert_eq. simpl. by rewrite Hct.
  - lia.
  - by rewrite Hd4, lookup_insert_eq, Hi.
  - done.
  - rewrite Ho2, Hi. unfold content. by rewrite Hi4, Hi3.
  - intros Hne. rewrite Hd4, lookup_insert_ne by done. apply lookup_delete_eq.
Qed.

End DumpProps.

Section DumpFailures.

Context {P R : Type} {KR : K8sResource R} {RT : GoRuntime}.
Implicit Types (st : @State P R) (k : @K8sStore P R).

(** A dump that returns an error: the error is wrapped, the time has
    been recorded, nothing has been renamed, and the destination shows
    what it showed before. *)
Lemma DumpFullState_error (now : Z) st e st' :
  DumpFullState now st = Returns (Some e) st' ->
  ~ throttled now (store st)
  /\ is_wrapped e = true
  /\ lastFullDump (store st') = now
  /\ renames (fsys st') = renames (fsys st)
  /\ (fs_ok (fsys st) -> tempFileName (store st) <> destFile (store st) ->
      read_path (fsys st') (destFile (store st))
      = read_path (fsys st) (destFile (store st))).
Proof.
  intros Hr.
  destruct (DumpFullState_path now st)
    as [| |f e' fs1 Ht HC|f fs1 s e' w fs2 Ht HC HF
        |f fs1 w fs2 ec fc fs3 e' fs4 Ht HC HF HCl HR|]; try congruence.
  - by destruct (os_Create_not_both _ _ _ _ _ HC).
  - inversion Hr; subst; clear Hr. simpl.
    destruct (os_Create_ok _ _ _ _ HC) as (_ & _ & _ & Hr1 & _ & Hok).
    destruct (fill_spec _ _ _ _ _ _ HF) as (Hfr & _ & Hr2 & _).
    split_and!; try done; [congruence|].
    intros Hfs Hne. destruct (Hok Hfs) as [_ Hq].
    destruct (Hq (destFile (store st))) as [Hrd Hni]; [done|].
    rewrite <- Hrd. apply (only_ino_read (f_ino f)); [done|].
    intros Hd. by apply Hni.
  - inversion Hr; subst; clear Hr. simpl.
    destruct (os_Create_ok _ _ _ _ HC) as (_ & _ & _ & Hr1 & _ & Hok).
    destruct (fill_spec _ _ _ _ _ _ HF) as (Hfr & _ & Hr2 & _).
    destruct (File_Close_same _ _ _ _ _ HCl) as (Hs3 & Hr3 & _).
    destruct (os_Rename_fail _ _ _ _ _ HR) as (Hs4 & Hr4).
    split_and!; try done; [congruence|].
    intros Hfs Hne. destruct (Hok Hfs) as [_ Hq].
    destruct (Hq (destFile (store st))) as [Hrd Hni]; [done|].
    rewrite (same_files_read _ _ _ Hs4), (same_files_read _ _ _ Hs3), <- Hrd.
    apply (only_ino_read (f_ino f)); [done|]. intros Hd. by apply Hni.
Qed.

(** [DumpFullState] keeps the file system well formed. *)
Lemma DumpFullState_fs_ok (now : Z) st :
  fs_ok (fsys st) -> fs_ok (fsys (final (DumpFullState now st))).
Proof.
  intros Hfs.
  destruct (DumpFullState_path now st)
    as [|e fs1 Ht HC|f e' fs1 Ht HC|f fs1 s e' w fs2 Ht HC HF
        |f fs1 w fs2 ec fc fs3 e' fs4 Ht HC HF HCl HR
        |f fs1 w fs2 ec fc fs3 fs4 Ht HC HF HCl HR]; simpl; try done.
  - destruct (os_Create_fail _ _ _ _ HC) as [_ ->].
    by apply (same_files_ok _ _ (same_files_enter _ _ _)).
  - by destruct (os_Create_not_both _ _ _ _ _ HC).
  - destruct (os_Create_ok _ _ _ _ HC) as (_ & _ & _ & _ & _ & Hok).
    destruct (fill_spec _ _ _ _ _ _ HF) as (Hfr & _).
    eapply only_ino_ok; [exact Hfr|]. by apply Hok.
  - destruct (os_Create_ok _ _ _ _ HC) as (_ & _ & _ & _ & _ & Hok).
    destruct (fill_spec _ _ _ _ _ _ HF) as (Hfr & _).
    destruct (File_Close_same _ _ _ _ _ HCl) as (Hs3 & _).
    eapply os_Rename_fs_ok; [exact HR|].
    eapply same_files_ok; [exact Hs3|].
    eapply only_ino_ok; [exact Hfr|]. by apply Hok.
  - destruct (os_Create_ok _ _ _ _ HC) as (_ & _ & _ & _ & _ & Hok).
    destruct (fill_spec _ _ _ _ _ _ HF) as (Hfr & _).
    destruct (File_Close_same _ _ _ _ _ HCl) as (Hs3 & _).
    eapply os_Rename_fs_ok; [exact HR|].
    eapply same_files_ok; [exact Hs3|].
    eapply only_ino_ok; [exact Hfr|]. by apply Hok.
Qed.

(** When the environment fails no system call, a dump that is not
    throttled goes through. *)
Lemma DumpFullState_nofault (now : Z) st :
  ~ throttled now (store st) -> faults (fsys st) = [] ->
  exists st', DumpFullState now st = Returns None st' /\ faults (fsys st') = [].
Proof.
  intros Ht Hf.
  destruct (os_Create_nofault (tempFileName (store st)) _ Hf) as (f0 & fs0 & HC0 & Hf0).
  destruct (os_Create_ok _ _ _ _ HC0) as (Hf0' & Hd1 & Hc1 & _).
  destruct (DumpFullState_path now st)
    as [|e fs1 _ HC|f e' fs1 _ HC|f fs1 s e' w fs2 _ HC HF
        |f fs1 w fs2 ec fc fs3 e' fs4 _ HC HF HCl HR
        |f fs1 w fs2 ec fc fs3 fs4 _ HC HF HCl HR]; try congruence;
    rewrite HC0 in HC; inversion HC; subst f0 fs0; clear HC;
    destruct (fill_spec _ _ _ _ _ _ HF) as ((Hd2 & _) & _ & _ & _ & Hnf);
    rewrite Hf0' in Hnf; simpl in Hnf;
    (destruct Hnf as [Hr Hf2]; [done|done|by rewrite Hc1|]); try discriminate.
  - destruct (File_Close_same _ _ _ _ _ HCl) as ((Hd3 & _) & _ & _ & _ & Hf3).
    destruct (os_Rename_nofault (tempFileName (store st)) (destFile (store st))
                fs3 (f_ino f)) as (fsx & Hx & _); [by apply Hf3|congruence|].
    congruence.
  - destruct (File_Close_same _ _ _ _ _ HCl) as ((Hd3 & _) & _ & _ & _ & Hf3).
    destruct (os_Rename_ok _ _ _ _ HR) as (_ & _ & _ & _ & _ & _ & Hf4).
    eexists. split; [done|]. simpl. rewrite Hf4, Hf3; done.
Qed.

End DumpFailures.

(** ** [AppendNewObject] *)

Section AppendFacts.

Context {P R : Type} {KR : K8sResource R} {RT : GoRuntime}.
Implicit Types (st : @State P R) (k : @K8sStore P R).

Lemma File_Write_fs_ok (f : File) (d : string) (fs : FS) r f' fs' :
  File_Write f d fs = (r, f', fs') -> fs_ok fs -> fs_ok fs'.
Proof.
  destruct r as [n e]. intros H.
  apply (only_ino_ok (f_ino f)). by apply (File_Write_frame _ _ _ _ _ _ _ H).
Qed.

(** [AppendNewObject] returns (it does not panic); of the store it
    changes the open file and [firstWrite] only, and it logs nothing. *)
Lemma AppendNewObject_frame (resource : R) st :
  exists err st',
    AppendNewObject resource st = Returns err st'
    /\ data (store st') = data (store st)
    /\ lastFullDump (store st') = lastFullDump (store st)
    /\ header (store st') = header (store st)
    /\ destFile (store st') = destFile (store st)
    /\ tempFileName (store st') = tempFileName (store st)
    /\ storeConfig (store st') = storeConfig (store st)
    /\ resourceCtor (store st') = resourceCtor (store st)
    /\ glog st' = glog st
    /\ (fs_ok (fsys st) -> fs_ok (fsys st')).
Proof.
  unfold AppendNewObject, mbind, Go_bind, getStore. simpl.
  destruct (firstWrite (store st)) eqn:Hfw; simpl.
  - unfold currentFile_WriteString at 1. simpl.
    destruct (File_Write (currentFile (store st)) (header (store st)) (fsys st))
      as [[[n e] f1] fs1] eqn:HW1. simpl.
    unfold sys. simpl.
    destruct (os_Rename (tempFileName (store st)) (destFile (store st)) fs1)
      as [[e2|] fs2] eqn:HR; simpl.
    + eexists _, _. split; [reflexivity|]. simpl. split_and!; try done.
      intros Hok. eapply os_Rename_fs_ok; [exact HR|].
      by eapply File_Write_fs_ok.
    + unfold currentFile_WriteString. simpl.
      destruct (File_Write f1 (ToString resource) fs2) as [[[n3 e3] f3] fs3] eqn:HW3.
      simpl. destruct e3; simpl; (eexists _, _; split; [reflexivity|]); simpl;
        (split_and!; try done); intros Hok;
        (eapply File_Write_fs_ok; [exact HW3|]);
        (eapply os_Rename_fs_ok; [exact HR|]); by eapply File_Write_fs_ok.
  - unfold currentFile_WriteString. simpl.
    destruct (File_Write (currentFile (store st)) (ToString resource) (fsys st))
      as [[[n3 e3] f3] fs3] eqn:HW3.
    simpl. destruct e3; simpl; (eexists _, _; split; [reflexivity|]); simpl;
      (split_and!; try done); intros Hok; by eapply File_Write_fs_ok.
Qed.

End AppendFacts.

(** ** The invariant of the store *)

Lemma has_underscore_app (a b : string) :
  has_underscore (a +:+ b) = has_underscore a || has_underscore b.
Proof.
  induction a as [|c a IH]; [reflexivity|].
  rewrite GoStringFacts.app_cons. simpl. by rewrite IH, orb_assoc.
Qed.

(** No identity is the placeholder of [DeleteResource]. *)
Lemma objectKey_not_Unknown (ns name : string) : objectKey ns name <> "Unknown".
Proof.
  intros Heq. assert (Hu : has_underscore (objectKey ns name) = true).
  { unfold objectKey. rewrite !has_underscore_app. simpl. by rewrite orb_true_r. }
  rewrite Heq in Hu. discriminate.
Qed.

Lemma app_not_self (s t : string) : t <> EmptyString -> s +:+ t <> s.
Proof.
  intros Ht Heq. apply (f_equal String.length) in Heq.
  rewrite GoStringFacts.length_app in Heq. destruct t; [done|]. simpl in Heq. lia.
Qed.

Section Invariant.

Context {P R : Type} {KR : K8sResource R} {RT : GoRuntime}.
Implicit Types (st : @State P R) (k : @K8sStore P R).

Local Abbreviation inv := (@store_inv P R).

Lemma keys_ok_Unknown k : keys_ok k -> data k !! "Unknown" = None.
Proof.
  intros Hk. destruct (data k !! "Unknown") as [r|] eqn:Hr; [|done].
  destruct (Hk _ _ Hr) as (ns & name & Heq).
  symmetry in Heq. by apply objectKey_not_Unknown in Heq.
Qed.

Lemma final_bind {A B : Type} (m : Go A) (f : A -> Go B) st :
  final ((m ≫= f) st)
  = match m st with
    | Returns a st' => final (f a st')
    | Panics _ st' => st'
    end.
Proof. unfold mbind, Go_bind. by destruct (m st). Qed.

Lemma preserves_bind (I : @State P R -> Prop) {A B : Type} (m : Go A) (f : A -> Go B) :
  preserves I m -> (forall a, preserves I (f a)) -> preserves I (m ≫= f).
Proof.
  intros Hm Hf st Hi. rewrite final_bind. specialize (Hm st Hi).
  destruct (m st) as [a st'|msg st']; simpl in Hm; [by apply Hf|done].
Qed.

Lemma preserves_ret (I : @State P R -> Prop) {A : Type} (a : A) : preserves I (mret a).
Proof. by intros st Hi. Qed.

Lemma preserves_panic (I : @State P R -> Prop) {A : Type} (msg : string) :
  preserves I (panic (A := A) msg).
Proof. by intros st Hi. Qed.

Lemma preserves_log sev msg : preserves inv (log sev msg).
Proof. by intros st Hi. Qed.

Lemma preserves_warn msg err : preserves inv (warnOnError msg err).
Proof. destruct err; [apply preserves_log|apply preserves_ret]. Qed.

Lemma preserves_getStore (I : @State P R -> Prop) : preserves I getStore.
Proof. by intros st Hi. Qed.

(** Changing the cache to one with good keys keeps the invariant. *)
Lemma preserves_set_data (g : @K8sStore P R -> gmap string R) :
  (forall k, keys_ok k -> forall key r, g k !! key = Some r ->
             exists ns name, key = objectKey ns name) ->
  preserves inv (modify (fun k => set_data (g k) k)).
Proof. intros Hg st (Hfs & Hne & Hk). split_and!; try done. simpl. intros key r. by apply Hg. Qed.

Lemma preserves_DumpFullState now : preserves inv (DumpFullState now).
Proof.
  intros st (Hfs & Hne & Hk).
  destruct (DumpFullState_data now st) as (Hd & _ & _ & Hde & Hte & _).
  split_and!.
  - by apply DumpFullState_fs_ok.
  - by rewrite Hde, Hte.
  - unfold keys_ok. by rewrite Hd.
Qed.

Lemma preserves_AppendNewObject r : preserves inv (AppendNewObject r).
Proof.
  intros st (Hfs & Hne & Hk).
  destruct (AppendNewObject_frame r st)
    as (err & st' & -> & Hd & _ & _ & Hde & Hte & _ & _ & _ & Hok).
  simpl. split_and!; [by apply Hok|by rewrite Hde, Hte|].
  unfold keys_ok. by rewrite Hd.
Qed.

Lemma preserves_call_resourceKey (I : @State P R -> Prop) {B : Type}
    (obj : Obj P) (f : string -> Go B) :
  (forall ns name, preserves I (f (objectKey ns name))) ->
  preserves I (call_resourceKey obj ≫= f).
Proof. intros Hf. destruct obj; [apply Hf|by intros st Hi..]. Qed.

Lemma keys_ok_insert k ns name (r : R) key r' :
  keys_ok k -> <[objectKey ns name := r]> (data k) !! key = Some r' ->
  exists ns' name', key = objectKey ns' name'.
Proof.
  intros Hk. destruct (decide (key = objectKey ns name)) as [->|Hne].
  - eauto.
  - rewrite lookup_insert_ne by done. apply Hk.
Qed.

Lemma preserves_addAll lst : preserves inv (addAll lst).
Proof.
  induction lst as [|o lst IH]; [apply preserves_ret|]. simpl.
  apply preserves_call_resourceKey. intros ns name.
  apply preserves_bind; [|by intros []].
  apply (preserves_set_data
           (fun k => <[objectKey ns name := resourceCtor k o]> (data k))).
  intros k Hk key r. by apply keys_ok_insert.
Qed.

Lemma preserves_dump_warn now msg :
  preserves inv (DumpFullState now ≫= warnOnError msg).
Proof. apply preserves_bind; [apply preserves_DumpFullState|]. intros e. apply preserves_warn. Qed.

Lemma preserves_AddResourceList now lst : preserves inv (AddResourceList now lst).
Proof.
  unfold AddResourceList. apply preserves_bind.
  - apply (preserves_set_data (fun _ => ∅)). intros k _ key r. by rewrite lookup_empty.
  - intros []. apply preserves_bind; [apply preserves_addAll|].
    intros []. apply preserves_dump_warn.
Qed.

Lemma preserves_AddResource obj : preserves inv (AddResource obj).
Proof.
  unfold AddResource. apply preserves_call_resourceKey. intros ns name.
  apply preserves_bind; [apply preserves_getStore|]. intros k0.
  apply preserves_bind; [apply preserves_log|]. intros [].
  apply preserves_bind.
  - apply (preserves_set_data
             (fun k => <[objectKey ns name := resourceCtor k0 obj]> (data k))).
    intros k Hk key r. by apply keys_ok_insert.
  - intros []. apply preserves_bind; [apply preserves_AppendNewObject|].
    intros e. apply preserves_warn.
Qed.

Lemma preserves_delete key now :
  preserves inv
    (log (INFO 11) "%s deleted: %s";;
     modify (fun k => set_data (delete key (data k)) k);;
     err ← DumpFullState now;
     warnOnError "Error when dumping state: %v" err).
Proof.
  apply preserves_bind; [apply preserves_log|]. intros [].
  apply preserves_bind; [|intros []; apply preserves_dump_warn].
  apply (preserves_set_data (fun k => delete key (data k))).
  intros k Hk key' r Hl. apply lookup_delete_Some in Hl as [_ Hl]. by eapply Hk.
Qed.

Lemma preserves_DeleteResource now obj : preserves inv (DeleteResource now obj).
Proof.
  unfold DeleteResource. destruct obj as [ns name body|Key v|tag].
  - apply (preserves_call_resourceKey inv (Object ns name body)).
    intros ns' name'. apply preserves_delete.
  - apply (preserves_call_resourceKey inv v).
    intros ns' name'. apply preserves_delete.
  - apply preserves_bind.
    + apply preserves_bind; [apply preserves_log|]. intros []. apply preserves_ret.
    + intros key. apply preserves_delete.
Qed.

Lemma preserves_UpdateResource now oldObj newObj :
  preserves inv (UpdateResource now oldObj newObj).
Proof.
  unfold UpdateResource. apply preserves_call_resourceKey. intros ns name.
  apply preserves_bind; [apply preserves_getStore|]. intros k0.
  destruct (HasChanged _ _); [|apply preserves_ret].
  apply preserves_bind; [apply preserves_log|]. intros [].
  apply preserves_bind; [|intros []; apply preserves_dump_warn].
  apply (preserves_set_data
           (fun k => <[objectKey ns name := resourceCtor k0 newObj]> (data k))).
  intros k Hk key r. by apply keys_ok_insert.
Qed.

Lemma preserves_exec c : preserves inv (exec c).
Proof.
  destruct c; simpl;
    [apply preserves_AddResourceList|apply preserves_AddResource
    |apply preserves_UpdateResource|apply preserves_DeleteResource].
Qed.

(** The invariant holds along every stream of calls. *)
Lemma preserves_run cs : preserves inv (run cs).
Proof.
  induction cs as [|c cs IH]; [apply preserves_ret|]. simpl.
  apply preserves_bind; [apply preserves_exec|]. by intros [].
Qed.

(** The invariant holds of the store [NewK8sStore] returns. *)
Lemma NewK8sStore_inv cfg sc (fs : FS) k fs' lg :
  NewK8sStore cfg sc fs = (inl k, fs') -> fs_ok fs -> store_inv (mkState k fs' lg).
Proof.
  unfold NewK8sStore. intros H Hfs.
  destruct (os_MkdirAll _ fs) as [[e|] fs1] eqn:HM; [discriminate|].
  destruct (os_Create _ fs1) as [[[f|] [e|]] fs2] eqn:HC; try discriminate.
  inversion H; subst; clear H.
  destruct (os_Create_ok _ _ _ _ HC) as (_ & _ & _ & _ & _ & Hok).
  split_and!; simpl.
  - apply Hok. eapply same_files_ok; [|exact Hfs]. by eapply os_MkdirAll_same.
  - by apply app_not_self.
  - intros key r Hl. simpl in Hl. by rewrite lookup_empty in Hl.
Qed.

End Invariant.

(** * The specified properties *)

(** ** Identity *)

(** C9. [resourceKey] joins namespace and name with one underscore and is
    not injective on (namespace, name) pairs: the distinct pairs
    ("a", "b_c") and ("a_b", "c") both give the identity "a_b_c", so two
    different resources added to a store share one cache entry. *)
Theorem resourceKey_not_injective :
  ("a", "b_c") <> ("a_b", "c")
  /\ (forall (P : Type) (b1 b2 : P),
        resourceKey (Object "a" "b_c" b1) = Some "a_b_c"
        /\ resourceKey (Object "a_b" "c" b2) = Some "a_b_c")
  /\ size (data (store (Scenario.reached
             [OnAdd (Object "a" "b_c" (Scenario.body "10.0.0.1"));
              OnAdd (Object "a_b" "c" (Scenario.body "10.0.0.2"))] []))) = 1.
Proof.
  split; [discriminate|]. split; [by intros P b1 b2|].
  vm_compute. reflexivity.
Qed.

(** ** The cache and the append path *)

Section CacheProps.

Context {P R : Type} {KR : K8sResource R} {RT : GoRuntime}.
Implicit Types (st : @State P R) (k : @K8sStore P R).

(** C8. Whatever [AppendNewObject] returns, an error included, the
    cache is what it was when the append was called; and [AddResource]
    has installed the new record under its identity before it appends,
    so the cache holds it whether the append fails or not. *)
Theorem AppendNewObject_keeps_cache :
  (forall st (resource : R),
      exists err st',
        AppendNewObject resource st = Returns err st'
        /\ data (store st') = data (store st))
  /\ (forall st ns name body,
        data (store (final (AddResource (Object ns name body) st)))
        = <[objectKey ns name := resourceCtor (store st) (Object ns name body)]>
            (data (store st))).
Proof.
  split.
  - intros st resource.
    destruct (AppendNewObject_frame resource st) as (err & st' & Heq & Hd & _).
    by exists err, st'.
  - intros st ns name body. unfold AddResource.
    change (call_resourceKey (Object ns name body)) with
      (mret (M := Go) (objectKey ns name) : @Go P R string).
    unfold mbind, Go_bind, mret, Go_ret, getStore, log, modify. simpl.
    match goal with
    | |- context [AppendNewObject ?r ?s] =>
        destruct (AppendNewObject_frame r s) as (err & st' & -> & Hd & _)
    end.
    destruct err; simpl; by rewrite Hd.
Qed.

(** C7. An update of an identity that is in the cache builds the
    candidate record and asks its [HasChanged] about the entry there.
    Changed: the entry is replaced and [DumpFullState] is called.
    Unchanged: the call returns with the state as it was, so no file
    operation has taken place. *)
Theorem UpdateResource_spec (now : Z) st (oldObj : Obj P) ns name body prev :
  data (store st) !! objectKey ns name = Some prev ->
  let newObj := Object ns name body in
  let cand := resourceCtor (store st) newObj in
  (HasChanged cand (Some prev) = true ->
     UpdateResource now oldObj newObj st
     = (DumpFullState now ≫= warnOnError "Error when dumping state: %v")
         (mkState (set_data (<[objectKey ns name := cand]> (data (store st))) (store st))
            (fsys st) (glog st ++ [(INFO 11, "%s changed: %s")]))
     /\ data (store (final (UpdateResource now oldObj newObj st)))
        = <[objectKey ns name := cand]> (data (store st)))
  /\ (HasChanged cand (Some prev) = false ->
        UpdateResource now oldObj newObj st = Returns () st).
Proof.
  intros Hprev newObj cand.
  assert (Hunf : UpdateResource now oldObj newObj st
                 = if HasChanged cand (Some prev)
                   then (DumpFullState now ≫= warnOnError "Error when dumping state: %v")
                          (mkState (set_data (<[objectKey ns name := cand]>
                                                (data (store st))) (store st))
                             (fsys st) (glog st ++ [(INFO 11, "%s changed: %s")]))
                   else Returns () st).
  { unfold UpdateResource, mbind, Go_bind, getStore. simpl.
    rewrite Hprev. fold newObj. fold cand. by destruct (HasChanged cand (Some prev)). }
  split; intros Hc; rewrite Hc in Hunf; [|done].
  split; [done|]. rewrite Hunf, final_bind.
  match goal with
  | |- context [DumpFullState now ?s] =>
      pose proof (DumpFullState_data now s) as (Hd & _);
      destruct (DumpFullState now s) as [[e|] s'|msg s']; simpl in *; exact Hd
  end.
Qed.

End CacheProps.

(** ** The full rewrite *)

Section ThrottleProps.

Context {P R : Type} {KR : K8sResource R} {RT : GoRuntime}.
Implicit Types (st : @State P R) (k : @K8sStore P R).

(** C10. [DumpFullState] records the time before it touches any file:
    when the rewrite then fails with an error, the time stamp is [now]
    all the same, nothing has been renamed onto the destination, and
    every request within the interval that follows is skipped: it
    returns [nil] and leaves store and files as they are. *)
Theorem DumpFullState_failure_throttles (now : Z) st e st' :
  DumpFullState now st = Returns (Some e) st' ->
  lastFullDump (store st') = now
  /\ renames (fsys st') = renames (fsys st)
  /\ (forall now',
        (0 <= now' - now < TimeBetweenFullDump (storeConfig (store st)))%Z ->
        DumpFullState now' st'
        = Returns None (mkState (store st') (fsys st') (glog st' ++ [logSkip]))).
Proof.
  intros Hr.
  destruct (DumpFullState_error now st e st' Hr) as (_ & _ & Hl & Hrn & _).
  split_and!; [done..|].
  intros now' Hn. apply DumpFullState_throttled. unfold throttled.
  pose proof (DumpFullState_data now st) as (_ & _ & _ & _ & _ & Hcfg & _).
  rewrite Hr in Hcfg. simpl in Hcfg. rewrite Hl, Hcfg.
  apply Time_Sub_lt; [|lia]. unfold minDuration. lia.
Qed.

(** C3, as amended. With interval T: when a call at [t1] is not
    throttled and returns, a call at [t2] less than T away returns without
    writing and without changing the time stamp, and the two calls make
    exactly one rewrite when the first returns no error and none when it
    returns one; and a call that comes T or more after the recorded time
    (T within the range of a duration) is not skipped: it records its time
    and, when no system call fails, rewrites the destination. *)
Theorem DumpFullState_throttle_interval :
  (forall st (t1 t2 : Z) r st1,
      ~ throttled t1 (store st) ->
      DumpFullState t1 st = Returns r st1 ->
      (Z.abs (t2 - t1) < TimeBetweenFullDump (storeConfig (store st)))%Z ->
      DumpFullState t2 st1
      = Returns None (mkState (store st1) (fsys st1) (glog st1 ++ [logSkip]))
      /\ renames (fsys st1)
         = renames (fsys st) + match r with None => 1 | Some _ => 0 end)
  /\ (forall st (now : Z),
        (TimeBetweenFullDump (storeConfig (store st)) <= maxDuration)%Z ->
        (TimeBetweenFullDump (storeConfig (store st))
           <= now - lastFullDump (store st))%Z ->
        ~ throttled now (store st)
        /\ lastFullDump (store (final (DumpFullState now st))) = now
        /\ (faults (fsys st) = [] ->
            exists st', DumpFullState now st = Returns None st'
              /\ renames (fsys st') = S (renames (fsys st))
              /\ read_path (fsys st') (destFile (store st))
                 = Some (dumpText (store st)))).
Proof.
  split.
  - intros st t1 t2 r st1 Ht Hr Hd. split.
    + apply DumpFullState_throttled. unfold throttled.
      pose proof (DumpFullState_data t1 st) as (_ & _ & _ & _ & _ & Hcfg & _).
      pose proof (DumpFullState_stamp t1 st Ht) as Hl.
      rewrite Hr in Hcfg, Hl. simpl in Hcfg, Hl. rewrite Hl, Hcfg.
      apply Time_Sub_lt; unfold minDuration; lia.
    + destruct r as [e|].
      * destruct (DumpFullState_error t1 st e st1 Hr) as (_ & _ & _ & Hrn & _). lia.
      * destruct (DumpFullState_success t1 st st1 Ht Hr) as (_ & Hrn & _). lia.
  - intros st now Hmax Hge.
    assert (Ht : ~ throttled now (store st)).
    { unfold throttled. pose proof (Time_Sub_ge _ _ _ Hmax Hge). lia. }
    split_and!; [done|by apply DumpFullState_stamp|].
    intros Hf. destruct (DumpFullState_nofault now st Ht Hf) as (st' & Hr & _).
    exists st'. destruct (DumpFullState_success now st st' Ht Hr) as (Hrd & Hrn & _).
    by split_and!.
Qed.

(** C5. After any stream of calls, a full rewrite that is made and
    succeeds leaves at the destination the header followed by the
    records of the cache, one line for each identity in it, in some
    order: the lines after the header are, up to order, the rendered
    records of the cache, none for an identity that is not in the cache
    and none twice unless two identities render alike. *)
Theorem DumpFullState_converges (cs : list call) st0 st (now : Z) st' :
  run cs st0 = Returns () st ->
  ~ throttled now (store st) ->
  DumpFullState now st = Returns None st' ->
  GoString.is_line (header (store st)) = true ->
  (forall key r, data (store st) !! key = Some r ->
                 GoString.is_line (ToString r) = true) ->
  exists order,
    order ≡ₚ map_to_list (data (store st))
    /\ data (store st') = data (store st)
    /\ (GoString.lines <$> read_path (fsys st') (destFile (store st)))
       = Some (header (store st) :: renderAll order)
    /\ length (renderAll order) = size (data (store st))
    /\ (forall l, l ∈ renderAll order <->
          exists key r, data (store st) !! key = Some r /\ l = ToString r)
    /\ ((forall (key1 key2 : string) r1 r2,
            data (store st) !! key1 = Some r1 -> data (store st) !! key2 = Some r2 ->
            ToString r1 = ToString r2 -> key1 = key2) ->
        NoDup (renderAll order)).
Proof.
  intros _ Ht Hr Hh Hl.
  exists (mapRange (data (store st))).
  pose proof (mapRange_perm R (data (store st))) as Hperm.
  destruct (DumpFullState_success now st st' Ht Hr) as (Hrd & _).
  pose proof (DumpFullState_data now st) as (Hd & _). rewrite Hr in Hd. simpl in Hd.
  assert (Hin : forall key r, (key, r) ∈ mapRange (data (store st))
                              <-> data (store st) !! key = Some r).
  { intros key r. rewrite Hperm. apply elem_of_map_to_list. }
  split_and!; try done.
  - rewrite Hrd. simpl. f_equal. unfold dumpText.
    change (header (store st) +:+ GoString.concat (renderAll (mapRange (data (store st)))))
      with (GoString.concat (header (store st) :: renderAll (mapRange (data (store st))))).
    apply GoStringFacts.lines_concat. constructor; [done|].
    apply Forall_forall. intros l Hlin. unfold renderAll in Hlin.
    apply list_elem_of_fmap in Hlin as ([key r] & -> & Hkr). simpl.
    eapply Hl. by apply Hin.
  - unfold renderAll. rewrite length_fmap, Hperm. apply length_map_to_list.
  - intros l. unfold renderAll. rewrite list_elem_of_fmap. split.
    + intros ([key r] & -> & Hkr). exists key, r. split; [by apply Hin|done].
    + intros (key & r & Hkr & ->). exists (key, r). split; [done|by apply Hin].
  - intros Hinj. unfold renderAll. apply NoDup_fmap_2_strong.
    + intros [key1 r1] [key2 r2] H1 H2 Heq. simpl in Heq.
      apply Hin in H1, H2. assert (key1 = key2) as -> by by eapply Hinj.
      congruence.
    + rewrite Hperm. apply NoDup_map_to_list.
Qed.

End ThrottleProps.

(** ** Deleting what cannot be resolved *)

Section DeleteProps.

Context {P R : Type} {KR : K8sResource R} {RT : GoRuntime}.
Implicit Types (st : @State P R) (k : @K8sStore P R).

Lemma set_data_id k : set_data (data k) k = k.
Proof. by destruct k. Qed.

(** [DumpFullState] panics only on a request that is not throttled and
    whose [os.Create] fails. *)
Lemma DumpFullState_panics (now : Z) st msg st' :
  DumpFullState now st = Panics msg st' ->
  ~ throttled now (store st) /\ next_fault (fsys st) <> IoOk.
Proof.
  intros H. destruct (DumpFullState_path now st) as [| e fs1 Ht HC | | | |];
    try discriminate.
  split; [done|]. by destruct (os_Create_fail _ _ _ _ HC).
Qed.

(** C6, as amended. A delete whose argument is of no known type, on a
    cache with no entry under the placeholder "Unknown": it logs, leaves
    the cache as it is and returns no error value, and it still goes on to
    [DumpFullState]. A throttled request returns with store and files as
    they are. One that is not throttled and meets no failing system call
    returns with the destination rewritten from the cache, by one rename.
    The call returns whenever the next system call, the [os.Create] of the
    scratch file, does not fail. Whenever it returns, either the request
    was not throttled and the destination has been rewritten, or nothing
    has been renamed, the last log entry is the warning of a failed
    rewrite unless the request was throttled, and the destination reads
    as before when the file system is sound and the scratch path is not
    the destination. *)
Theorem DeleteResource_unknown (now : Z) (tag : string) st :
  data (store st) !! "Unknown" = None ->
  DeleteResource now (Foreign tag) st
  = (DumpFullState now ≫= warnOnError "Error when dumping state: %v")
      (mkState (store st) (fsys st)
         ((glog st ++ [(INFO 6, "Unknown object type %v")])
            ++ [(INFO 11, "%s deleted: %s")]))
  /\ data (store (final (DeleteResource now (Foreign tag) st))) = data (store st)
  /\ (throttled now (store st) ->
      exists lg, DeleteResource now (Foreign tag) st
                 = Returns () (mkState (store st) (fsys st) lg))
  /\ (~ throttled now (store st) -> faults (fsys st) = [] ->
      exists st', DeleteResource now (Foreign tag) st = Returns () st'
        /\ read_path (fsys st') (destFile (store st)) = Some (dumpText (store st))
        /\ renames (fsys st') = S (renames (fsys st)))
  /\ (next_fault (fsys st) = IoOk ->
      exists st', DeleteResource now (Foreign tag) st = Returns () st')
  /\ (forall st', DeleteResource now (Foreign tag) st = Returns () st' ->
        (~ throttled now (store st)
         /\ read_path (fsys st') (destFile (store st)) = Some (dumpText (store st))
         /\ renames (fsys st') = S (renames (fsys st)))
        \/ (renames (fsys st') = renames (fsys st)
            /\ (~ throttled now (store st) ->
                last (glog st') = Some (WARNING, "Error when dumping state: %v"))
            /\ (fs_ok (fsys st) -> tempFileName (store st) <> destFile (store st) ->
                read_path (fsys st') (destFile (store st))
                = read_path (fsys st) (destFile (store st))))).
Proof.
  intros Hu.
  set (s := mkState (store st) (fsys st)
              ((glog st ++ [(INFO 6, "Unknown object type %v")])
                 ++ [(INFO 11, "%s deleted: %s")])).
  assert (Hunf : DeleteResource now (Foreign tag) st
                 = (DumpFullState now ≫= warnOnError "Error when dumping state: %v") s).
  { unfold DeleteResource, mbind, Go_bind, log, modify, mret, Go_ret. simpl.
    by rewrite (delete_id _ _ Hu), set_data_id. }
  split_and!; [done| | | | |].
  - rewrite Hunf, final_bind.
    pose proof (DumpFullState_data now s) as (Hd & _).
    destruct (DumpFullState now s) as [[e|] s'|msg s']; simpl in *; exact Hd.
  - intros Ht. rewrite Hunf. unfold mbind, Go_bind.
    rewrite DumpFullState_throttled by done. simpl. by eexists.
  - intros Ht Hf. rewrite Hunf. unfold mbind, Go_bind.
    destruct (DumpFullState_nofault now s Ht Hf) as (st' & Hr & _).
    destruct (DumpFullState_success now s st' Ht Hr) as (Hrd & Hrn & _).
    rewrite Hr. simpl. by exists st'.
  - intros Hn. rewrite Hunf. unfold mbind, Go_bind.
    destruct (DumpFullState now s) as [[e|] s'|msg s'] eqn:Hr; simpl.
    + by eexists.
    + by eexists.
    + by destruct (DumpFullState_panics now s msg s' Hr) as [_ []].
  - intros st'. rewrite Hunf. unfold mbind, Go_bind.
    destruct (DumpFullState now s) as [[e|] s'|msg s'] eqn:Hr; simpl; [| |done].
    + intros [= <-]. right.
      destruct (DumpFullState_error now s e s' Hr) as (Ht & _ & _ & Hrn & Hrd).
      simpl. split_and!; [done| |done].
      intros _. by rewrite last_snoc.
    + intros [= <-].
      destruct (Z_lt_dec (Time_Sub now (lastFullDump (store st)))
                  (TimeBetweenFullDump (storeConfig (store st)))) as [Ht|Ht].
      * right. rewrite (DumpFullState_throttled now s Ht) in Hr.
        injection Hr as <-. by split_and!.
      * left. by destruct (DumpFullState_success now s s' Ht Hr) as (Hrd & Hrn & _).
Qed.
End DeleteProps.

(** ** What the code does where the specification says otherwise *)

Module Divergences.
Import NodeResource Scenario.

(** C3, as the specification has it, fails. On a new store whose first
    write to the scratch file fails, a request at [t0], which comes more
    than the interval after the recorded time, returns an error, and the
    request one nanosecond later is skipped: the two have made no rewrite,
    and there is no destination file. And after a rewrite at [t0], two
    requests one and two nanoseconds later are both skipped: no rewrite
    either. *)
Lemma throttled_pair_without_rewrite :
  (TimeBetweenFullDump (storeConfig (store failing))
     <= t0 - lastFullDump (store failing))%Z
  /\ (Z.abs (t0 + 1 - t0) < TimeBetweenFullDump (storeConfig (store failing)))%Z
  /\ DumpFullState t0 failing
     = Returns (Some (errorOf (DumpFullState t0 failing)))
         (final (DumpFullState t0 failing))
  /\ DumpFullState (t0 + 1) (final (DumpFullState t0 failing))
     = Returns None (final (DumpFullState (t0 + 1) (final (DumpFullState t0 failing))))
  /\ renames (fsys (final (DumpFullState (t0 + 1) (final (DumpFullState t0 failing)))))
     = renames (fsys failing)
  /\ read_path (fsys (final (DumpFullState (t0 + 1) (final (DumpFullState t0 failing)))))
       dest = None
  /\ (Z.abs (t0 + 2 - (t0 + 1)) < TimeBetweenFullDump (storeConfig (store listed)))%Z
  /\ DumpFullState (t0 + 1) listed
     = Returns None (final (DumpFullState (t0 + 1) listed))
  /\ DumpFullState (t0 + 2) (final (DumpFullState (t0 + 1) listed))
     = Returns None (final (DumpFullState (t0 + 2) (final (DumpFullState (t0 + 1) listed))))
  /\ renames (fsys (final (DumpFullState (t0 + 2) (final (DumpFullState (t0 + 1) listed)))))
     = renames (fsys listed).
Proof. vm_compute. by split_and!. Qed.

(** C6, as the specification has it, fails: on a new store a delete of
    an object of no known type creates the destination file, by a full
    rewrite; and when the [os.Create] of that rewrite fails, the call
    does not return. *)
Lemma unknown_delete_rewrites :
  read_path (fsys (fresh [])) dest = None
  /\ read_path (fsys (reached [OnDelete t0 (Foreign "tombstone")] [])) dest
     = Some NodeHeader
  /\ renames (fsys (reached [OnDelete t0 (Foreign "tombstone")] []))
     = S (renames (fsys (fresh [])))
  /\ panicked (after [OnDelete t0 (Foreign "tombstone")] [IoOk; IoOk; IoFail 0]) = true.
Proof. vm_compute. by split_and!. Qed.

(** C1. A list that fills the cache, then an add: [DumpFullState] has
    left [firstWrite] set, so [AppendNewObject] writes the header once
    more, fails to rename the scratch file, which is gone, and returns
    before it writes the record. The destination holds the header, the
    line of [x] and the header again; the line of [y] is missing though
    [y] is in the cache. *)
Theorem list_then_add_loses_record :
  destLines (reached [OnList t0 [x]; OnAdd y] [])
  = Some [NodeHeader; lineOf x; NodeHeader]
  /\ destLines (reached [OnList t0 [x]] []) = Some [NodeHeader; lineOf x]
  /\ size (data (store (reached [OnList t0 [x]; OnAdd y] []))) = 2
  /\ last (glog (reached [OnList t0 [x]; OnAdd y] []))
     = Some (WARNING, "Error when appending new object to current state: %v")
  /\ last (trace (fsys (reached [OnList t0 [x]; OnAdd y] [])))
     = Some (SysRename temp dest, false).
Proof. vm_compute. by split_and!. Qed.

(** C4. A list on a new store whose [os.Create] fails in
    [DumpFullState]: the call panics with a nil dereference instead of
    logging the error. *)
Theorem AddResourceList_panics_on_create_failure :
  panicked (after [OnList t0 [x]] [IoOk; IoOk; IoFail 0]) = true
  /\ panicked (after [OnList t0 [x]] []) = false.
Proof. vm_compute. by split. Qed.

(** C2. A full rewrite after a first one has succeeded, with
    [os.Create] failing: [DumpFullState] returns no error, wrapped or
    not; it panics. *)
Theorem DumpFullState_create_failure_not_returned :
  forall e st',
    DumpFullState t1 (reached [OnList t0 [x]] [IoOk; IoOk; IoOk; IoOk; IoOk; IoOk;
                                               IoOk; IoFail 0])
    <> Returns e st'.
Proof.
  intros e st' H.
  assert (Hp : panicked
                 (DumpFullState t1
                    (reached [OnList t0 [x]] [IoOk; IoOk; IoOk; IoOk; IoOk; IoOk;
                                              IoOk; IoFail 0])) = true)
    by (vm_compute; reflexivity).
  rewrite H in Hp. discriminate.
Qed.

End Divergences.

(** ** The properties at work on a store of nodes *)

Module Instances.
Import NodeResource Scenario.

(** An update of [x], which is in the cache of [listed]. *)
Lemma UpdateResource_spec_witness :
  data (store listed) !! objectKey "a" "x" = Some (NewNodeFromRuntime x)
  /\ data (store (final (UpdateResource t1 x (Object "a" "x" (body "10.0.0.9")) listed)))
     = <[objectKey "a" "x" :=
           resourceCtor (store listed) (Object "a" "x" (body "10.0.0.9"))]>
         (data (store listed)).
Proof.
  assert (Hp : data (store listed) !! objectKey "a" "x" = Some (NewNodeFromRuntime x))
    by (vm_compute; reflexivity).
  split; [exact Hp|].
  exact (proj2 (proj1 (UpdateResource_spec t1 listed x "a" "x" (body "10.0.0.9")
                         (NewNodeFromRuntime x) Hp) eq_refl)).
Defined.

(** A dump whose first write fails. *)
Lemma DumpFullState_failure_throttles_witness :
  DumpFullState t0 failing
  = Returns (Some (errorOf (DumpFullState t0 failing))) (final (DumpFullState t0 failing))
  /\ lastFullDump (store (final (DumpFullState t0 failing))) = t0.
Proof.
  assert (He : DumpFullState t0 failing
               = Returns (Some (errorOf (DumpFullState t0 failing)))
                   (final (DumpFullState t0 failing)))
    by (vm_compute; reflexivity).
  split; [exact He|].
  exact (proj1 (DumpFullState_failure_throttles t0 failing _ _ He)).
Defined.

(** Two dumps one nanosecond apart on a new store. *)
Lemma DumpFullState_throttle_interval_witness :
  ~ throttled t0 (store (fresh []))
  /\ DumpFullState t0 (fresh []) = Returns None (final (DumpFullState t0 (fresh [])))
  /\ (Z.abs (t0 + 1 - t0) < TimeBetweenFullDump (storeConfig (store (fresh []))))%Z
  /\ renames (fsys (final (DumpFullState t0 (fresh []))))
     = renames (fsys (fresh [])) + 1.
Proof.
  assert (Ht : ~ throttled t0 (store (fresh [])))
    by (unfold throttled; vm_compute; discriminate).
  assert (Hr : DumpFullState t0 (fresh [])
               = Returns None (final (DumpFullState t0 (fresh []))))
    by (vm_compute; reflexivity).
  assert (Hd : (Z.abs (t0 + 1 - t0)
                < TimeBetweenFullDump (storeConfig (store (fresh []))))%Z)
    by (vm_compute; reflexivity).
  split_and!; [exact Ht|exact Hr|exact Hd|].
  exact (proj2 (proj1 DumpFullState_throttle_interval (fresh []) t0 (t0 + 1)%Z None _
                  Ht Hr Hd)).
Defined.

(** A list, an add, then a dump twenty seconds later. *)
Lemma DumpFullState_converges_witness :
  (GoString.lines
     <$> read_path
           (fsys (final (DumpFullState t1 (reached [OnList t0 [x]; OnAdd y] []))))
           (destFile (store (reached [OnList t0 [x]; OnAdd y] []))))
  <> None.
Proof.
  assert (H1 : run [OnList t0 [x]; OnAdd y] (fresh [])
               = Returns () (reached [OnList t0 [x]; OnAdd y] []))
    by (vm_compute; reflexivity).
  assert (H2 : ~ throttled t1 (store (reached [OnList t0 [x]; OnAdd y] [])))
    by (unfold throttled; vm_compute; discriminate).
  assert (H3 : DumpFullState t1 (reached [OnList t0 [x]; OnAdd y] [])
               = Returns None
                   (final (DumpFullState t1 (reached [OnList t0 [x]; OnAdd y] []))))
    by (vm_compute; reflexivity).
  assert (H4 : GoString.is_line (header (store (reached [OnList t0 [x]; OnAdd y] [])))
               = true)
    by (vm_compute; reflexivity).
  assert (H5 : forall key r,
             data (store (reached [OnList t0 [x]; OnAdd y] [])) !! key = Some r ->
             GoString.is_line (ToString r) = true).
  { assert (HF : Forall (fun kv : string * Node => GoString.is_line (ToString kv.2) = true)
                   (map_to_list (data (store (reached [OnList t0 [x]; OnAdd y] [])))))
      by (vm_compute; repeat constructor).
    intros key r Hl. rewrite Forall_forall in HF.
    apply (HF (key, r)). by apply elem_of_map_to_list. }
  destruct (DumpFullState_converges _ _ _ _ _ H1 H2 H3 H4 H5)
    as (order & _ & _ & Hlines & _).
  rewrite Hlines. discriminate.
Defined.

(** A delete of an object of no known type, twenty seconds after the
    list. *)
Lemma DeleteResource_unknown_witness :
  data (store listed) !! "Unknown" = None
  /\ ~ throttled t1 (store listed)
  /\ faults (fsys listed) = []
  /\ data (store (final (DeleteResource t1 (Foreign "tombstone") listed)))
     = data (store listed)
  /\ exists st', DeleteResource t1 (Foreign "tombstone") listed = Returns () st'
       /\ read_path (fsys st') (destFile (store listed)) = Some (dumpText (store listed))
       /\ renames (fsys st') = S (renames (fsys listed)).
Proof.
  assert (Hu : data (store listed) !! "Unknown" = None) by (vm_compute; reflexivity).
  assert (Ht : ~ throttled t1 (store listed))
    by (unfold throttled; vm_compute; discriminate).
  assert (Hf : faults (fsys listed) = []) by (vm_compute; reflexivity).
  split_and!; [exact Hu|exact Ht|exact Hf| |].
  - exact (proj1 (proj2 (DeleteResource_unknown t1 "tombstone" listed Hu))).
  - exact (proj1 (proj2 (proj2 (proj2 (DeleteResource_unknown t1 "tombstone" listed Hu))))
             Ht Hf).
Defined.

End Instances.

(** * More of the store *)

(** ** The append path *)

(** An unhindered write at the end of an open file, in full. *)
Lemma File_Write_ok (f : File) (d : string) (fs : FS) :
  f_closed f = false -> next_fault fs = IoOk ->
  f_off f = String.length (content fs (f_ino f)) ->
  File_Write f d fs
  = (String.length d, None,
     mkFile (f_name f) (f_ino f) (String.length (content fs (f_ino f) +:+ d)) false,
     set_inode (f_ino f) (content fs (f_ino f) +:+ d)
       (enter (SysWrite (f_ino f) d) true fs)).
Proof.
  intros Hc Hf Ho. unfold File_Write. rewrite Hc, Hf, Ho.
  by rewrite GoStringFacts.pwrite_end, GoStringFacts.length_app.
Qed.

Lemma File_Write_unwrapped (f : File) (d : string) (fs : FS) n e f' fs' :
  File_Write f d fs = (n, Some e, f', fs') -> is_wrapped e = false.
Proof.
  unfold File_Write. destruct (f_closed f); [by intros [= <- <- <- <-]|].
  destruct (next_fault fs); [discriminate|]. by intros [= <- <- <- <-].
Qed.

Lemma os_Rename_unwrapped (old new : string) (fs : FS) e fs' :
  os_Rename old new fs = (Some e, fs') -> is_wrapped e = false.
Proof.
  unfold os_Rename. destruct (next_fault fs); [|by intros [= <- <-]].
  destruct (dir fs !! old); [discriminate|]. by intros [= <- <-].
Qed.

Section AppendPath.

Context {P R : Type} {KR : K8sResource R} {RT : GoRuntime}.
Implicit Types (st : @State P R) (k : @K8sStore P R).

(** An append past the first write, with the write going through. *)
Lemma AppendNewObject_steady (resource : R) st :
  appending st -> next_fault (fsys st) = IoOk ->
  AppendNewObject resource st
  = Returns None
      (mkState
         (set_currentFile
            (mkFile (f_name (currentFile (store st))) (f_ino (currentFile (store st)))
               (String.length (content (fsys st) (f_ino (currentFile (store st)))
                               +:+ ToString resource)) false)
            (store st))
         (set_inode (f_ino (currentFile (store st)))
            (content (fsys st) (f_ino (currentFile (store st))) +:+ ToString resource)
            (enter (SysWrite (f_ino (currentFile (store st))) (ToString resource)) true
               (fsys st)))
         (glog st)).
Proof.
  intros (Hfw & Hc & Ho & Hd) Hf.
  unfold AppendNewObject, mbind, Go_bind, getStore. simpl. rewrite Hfw. simpl.
  unfold currentFile_WriteString. by rewrite (File_Write_ok _ _ _ Hc Hf Ho).
Qed.

(** X5. Past the first write, an append whose write goes through adds
    the line of the record at the end of the destination file and does
    nothing else: one write, no other system call, no other file touched,
    the cache as it was; and the store is ready for the next append. *)
Theorem AppendNewObject_appends (resource : R) st :
  appending st -> next_fault (fsys st) = IoOk ->
  exists old st',
    AppendNewObject resource st = Returns None st'
    /\ read_path (fsys st) (destFile (store st)) = Some old
    /\ read_path (fsys st') (destFile (store st)) = Some (old +:+ ToString resource)
    /\ trace (fsys st')
       = (trace (fsys st)
            ++ [(SysWrite (f_ino (currentFile (store st))) (ToString resource), true)])%list
    /\ only_ino (f_ino (currentFile (store st))) (fsys st) (fsys st')
    /\ data (store st') = data (store st)
    /\ appending st'.
Proof.
  intros Ha Hf. pose proof Ha as (Hfw & Hc & Ho & Hd).
  eexists _, _. split; [by apply AppendNewObject_steady|]. simpl.
  split_and!.
  - unfold read_path. by rewrite Hd.
  - unfold read_path. simpl. rewrite Hd. simpl. by rewrite content_set_inode.
  - done.
  - repeat split; try done. intros j Hj. simpl. by rewrite lookup_insert_ne.
  - done.
  - repeat split; simpl; try done. by rewrite content_set_inode.
Qed.

(** The first append of a store whose open file is the scratch file,
    with no fault to come: header, rename, record. *)
Lemma AppendNewObject_first (resource : R) st :
  firstWrite (store st) = true ->
  f_closed (currentFile (store st)) = false ->
  f_off (currentFile (store st))
  = String.length (content (fsys st) (f_ino (currentFile (store st)))) ->
  dir (fsys st) !! tempFileName (store st) = Some (f_ino (currentFile (store st))) ->
  tempFileName (store st) <> destFile (store st) ->
  faults (fsys st) = [] ->
  exists st',
    AppendNewObject resource st = Returns None st'
    /\ read_path (fsys st') (destFile (store st))
       = Some (content (fsys st) (f_ino (currentFile (store st)))
               +:+ header (store st) +:+ ToString resource)
    /\ dir (fsys st') !! tempFileName (store st) = None
    /\ data (store st') = data (store st)
    /\ destFile (store st') = destFile (store st)
    /\ faults (fsys st') = []
    /\ appending st'.
Proof.
  intros Hfw Hc Ho Hd Hne Hf.
  assert (Hnf : next_fault (fsys st) = IoOk) by (unfold next_fault; by rewrite Hf).
  unfold AppendNewObject, mbind, Go_bind, getStore. simpl. rewrite Hfw. simpl.
  unfold currentFile_WriteString at 1. simpl.
  rewrite (File_Write_ok _ (header (store st)) _ Hc Hnf Ho).
  remember (content (fsys st) (f_ino (currentFile (store st)))) as c0 eqn:Hc0.
  simpl. unfold sys. simpl.
  unfold os_Rename, next_fault. simpl. rewrite Hf, Hd. simpl.
  unfold currentFile_WriteString. simpl.
  rewrite File_Write_ok; simpl; try done.
  2:{ unfold next_fault. simpl. by rewrite Hf. }
  2:{ unfold content. simpl. by rewrite lookup_insert_eq. }
  eexists. split; [reflexivity|]. simpl.
  unfold appending, read_path, content. simpl.
  rewrite !lookup_insert_eq. simpl. rewrite !lookup_insert_eq. simpl.
  split_and!; try done.
  - by rewrite GoStringFacts.app_assoc.
  - rewrite lookup_insert_ne by done. apply lookup_delete_eq.
  - by rewrite Hf.
Qed.

End AppendPath.

(** ** Paths *)

(** [path.Clean] on paths that need cleaning: doubled and trailing
    slashes, [.] and [..] elements, the root and the empty path. *)
Example path_Clean_examples :
  path_Clean "abc//def//ghi" = "abc/def/ghi"
  /\ path_Clean "abc/def/" = "abc/def"
  /\ path_Clean "abc/./../def" = "def"
  /\ path_Clean "abc/def/../../.." = ".."
  /\ path_Clean "/abc/def/../../.." = "/"
  /\ path_Clean "../../abc" = "../../abc"
  /\ path_Clean "///abc" = "/abc"
  /\ path_Clean "abc/def/.." = "abc"
  /\ path_Clean "abc/def/../.." = "."
  /\ path_Clean EmptyString = "."
  /\ path_Clean "/" = "/".
Proof. vm_compute. by split_and!. Qed.

(** [path.Join] drops empty elements and cleans what it joins: a
    trailing slash of the cache directory or an empty cluster name leaves
    no doubled or trailing slash in the path. *)
Example path_Join_examples :
  path_Join "/tmp/cache" "minikube" = "/tmp/cache/minikube"
  /\ path_Join "/tmp/cache/" "minikube" = "/tmp/cache/minikube"
  /\ path_Join "/tmp/cache" EmptyString = "/tmp/cache"
  /\ path_Join EmptyString "minikube" = "minikube"
  /\ path_Join EmptyString EmptyString = EmptyString
  /\ path_Join "/" "a" = "/a"
  /\ path_Join "a/" EmptyString = "a"
  /\ path_Join "/tmp/cache" "../x" = "/tmp/x".
Proof. vm_compute. by split_and!. Qed.

(** ** [NewK8sStore] *)

Section Construction.

Context {P R : Type} {KR : K8sResource R} {RT : GoRuntime}.
Implicit Types (st : @State P R) (k : @K8sStore P R) (cfg : @watchConfig P R).

(** The store [NewK8sStore] returns and the file it holds. *)
Lemma NewK8sStore_ok cfg sc (fs : FS) k fs' :
  NewK8sStore cfg sc fs = (inl k, fs') ->
  let destDir := path_Join (CacheDir sc) (Cluster sc) in
  let dest := path_Join destDir (cfg_resourceName cfg) in
  exists f fs1,
    os_MkdirAll destDir fs = (None, fs1)
    /\ os_Create (dest +:+ "_") fs1 = (Some f, None, fs')
    /\ k = mkK8sStore ∅ (cfg_resourceCtor cfg) (cfg_header cfg) (cfg_resourceName cfg)
             dest (dest +:+ "_") f zeroTime sc true.
Proof.
  unfold NewK8sStore. intros H. simpl.
  destruct (os_MkdirAll _ fs) as [[e|] fs1] eqn:HM; [discriminate|].
  destruct (os_Create _ fs1) as [[[f|] [e|]] fs2] eqn:HC; try discriminate.
  inversion H; subst; clear H. by exists f, fs1.
Qed.

(** What [NewK8sStore] has set up when it returns a store. *)
Lemma NewK8sStore_built cfg sc (fs : FS) k fs' :
  NewK8sStore cfg sc fs = (inl k, fs') ->
  data k = ∅ /\ firstWrite k = true /\ lastFullDump k = zeroTime
  /\ header k = cfg_header cfg /\ storeConfig k = sc
  /\ resourceName k = cfg_resourceName cfg
  /\ destFile k = path_Join (path_Join (CacheDir sc) (Cluster sc)) (cfg_resourceName cfg)
  /\ tempFileName k = destFile k +:+ "_"
  /\ tempFileName k <> destFile k
  /\ read_path fs' (tempFileName k) = Some EmptyString
  /\ dir fs' !! tempFileName k = Some (f_ino (currentFile k))
  /\ f_name (currentFile k) = tempFileName k
  /\ f_off (currentFile k) = 0 /\ f_closed (currentFile k) = false
  /\ (fs_ok fs ->
      fs_ok fs' /\
      forall q, q <> tempFileName k -> read_path fs' q = read_path fs q).
Proof.
  intros H. destruct (NewK8sStore_ok _ _ _ _ _ H) as (f & fs1 & HM & HC & ->).
  destruct (os_Create_ok _ _ _ _ HC) as (Hf & Hd & Hc & _ & _ & Hok).
  simpl. split_and!; try done.
  - by apply app_not_self.
  - unfold read_path. rewrite Hd. simpl. by rewrite Hc.
  - by rewrite Hf.
  - by rewrite Hf.
  - by rewrite Hf.
  - intros Hfs.
    pose proof (os_MkdirAll_same _ _ _ _ HM) as Hs.
    destruct (Hok (same_files_ok _ _ Hs Hfs)) as [Hfs' Hq]. split; [done|].
    intros q Hne. destruct (Hq q Hne) as [-> _]. by apply same_files_read.
Qed.

(** X1. A store that [NewK8sStore] returns: its cache is empty, it has
    written nothing yet, its last dump is the zero time, its destination
    is [path.Join] of [path.Join] of CacheDir and Cluster with the resource
    name, a cleaned path, and its scratch path is that with an underscore
    appended. The scratch file is there and empty, even if one was left
    over, and the store holds it open at offset 0; every other path, the
    destination included, shows what it showed before. *)
Theorem NewK8sStore_success cfg sc (fs : FS) k fs' :
  NewK8sStore cfg sc fs = (inl k, fs') ->
  data k = ∅ /\ firstWrite k = true /\ lastFullDump k = zeroTime
  /\ header k = cfg_header cfg /\ storeConfig k = sc
  /\ resourceName k = cfg_resourceName cfg
  /\ destFile k = path_Join (path_Join (CacheDir sc) (Cluster sc)) (cfg_resourceName cfg)
  /\ tempFileName k = destFile k +:+ "_"
  /\ tempFileName k <> destFile k
  /\ read_path fs' (tempFileName k) = Some EmptyString
  /\ dir fs' !! tempFileName k = Some (f_ino (currentFile k))
  /\ f_name (currentFile k) = tempFileName k
  /\ f_off (currentFile k) = 0 /\ f_closed (currentFile k) = false
  /\ (fs_ok fs ->
      fs_ok fs' /\
      forall q, q <> tempFileName k -> read_path fs' q = read_path fs q).
Proof. apply NewK8sStore_built. Qed.

(** X2. When [NewK8sStore] fails, the error is that of [os.MkdirAll] or
    of [os.Create], wrapped with a message that ends in the cleaned path
    of the directory or of the scratch file; no file has been created or
    changed. It fails only if a system call does. *)
Theorem NewK8sStore_failure cfg sc (fs : FS) e fs' :
  NewK8sStore cfg sc fs = (inr e, fs') ->
  let destDir := path_Join (CacheDir sc) (Cluster sc) in
  let temp := path_Join destDir (cfg_resourceName cfg) +:+ "_" in
  (exists cause,
      (os_MkdirAll destDir fs = (Some cause, fs')
       /\ e = Wrapf cause ("Error creating directory " +:+ destDir))
      \/ (exists fs1, os_MkdirAll destDir fs = (None, fs1)
          /\ os_Create temp fs1 = (None, Some cause, fs')
          /\ e = Wrapf cause ("Error creating file " +:+ temp)))
  /\ is_wrapped e = true
  /\ same_files fs fs'
  /\ faults fs <> [].
Proof.
  intros H destDir temp. unfold NewK8sStore in H. fold destDir in H.
  destruct (os_MkdirAll destDir fs) as [[c|] fs1] eqn:HM.
  - inversion H; subst; clear H. split_and!.
    + exists c. by left.
    + done.
    + by eapply os_MkdirAll_same.
    + revert HM. unfold os_MkdirAll, next_fault.
      by destruct (faults fs) as [|[|n] fl].
  - pose proof (os_MkdirAll_same _ _ _ _ HM) as Hs.
    fold temp in H.
    destruct (os_Create temp fs1) as [[[f|] [c|]] fs2] eqn:HC.
    + by destruct (os_Create_not_both _ _ _ _ _ HC).
    + discriminate.
    + inversion H; subst; clear H.
      destruct (os_Create_fail _ _ _ _ HC) as [Hn ->]. split_and!.
      * exists c. right. by exists fs1.
      * done.
      * destruct Hs as (? & ? & ?). by repeat split.
      * revert HM Hn. unfold os_MkdirAll, next_fault.
        destruct (faults fs) as [|[|n] fl] eqn:Hf; [|by intros _ _..].
        intros [= <-]. simpl. by rewrite Hf.
    + by destruct (os_Create_fail _ _ _ _ HC) as [Hn _];
        revert HC; unfold os_Create; destruct (next_fault fs1).
Qed.

(** X3. The last dump of a new store is the zero time, so the first
    request for a full rewrite is not throttled, whatever the interval
    (a duration), once the clock is past the interval itself. *)
Theorem first_dump_not_throttled cfg sc (fs : FS) k fs' (now : Z) :
  NewK8sStore cfg sc fs = (inl k, fs') ->
  (TimeBetweenFullDump sc <= maxDuration)%Z ->
  (TimeBetweenFullDump sc <= now)%Z ->
  ~ throttled now k.
Proof.
  intros H Hmax Hnow. destruct (NewK8sStore_ok _ _ _ _ _ H) as (f & fs1 & _ & _ & ->).
  unfold throttled. simpl. unfold zeroTime.
  pose proof (Time_Sub_ge now 0 _ Hmax). lia.
Qed.

(** X4. The first append on a new store, when no system call fails:
    the destination file comes into being with the header as its first
    line and the record as its second, the scratch path is gone, and the
    store is ready to append. *)
Theorem first_append_bootstraps cfg sc (fs : FS) k fs' lg (resource : R) :
  NewK8sStore cfg sc fs = (inl k, fs') ->
  faults fs' = [] ->
  exists st',
    AppendNewObject resource (mkState k fs' lg) = Returns None st'
    /\ read_path (fsys st') (destFile k) = Some (cfg_header cfg +:+ ToString resource)
    /\ read_path (fsys st') (tempFileName k) = None
    /\ data (store st') = ∅
    /\ appending st'.
Proof.
  intros H Hf.
  destruct (NewK8sStore_built _ _ _ _ _ H)
    as (Hd & Hfw & _ & Hh & _ & _ & _ & Ht & _ & Hrd & Hdir & _ & Ho & Hc & _).
  destruct (AppendNewObject_first resource (mkState k fs' lg))
    as (st' & Hr & Hrd' & Hdir' & Hd' & _ & _ & Ha); simpl; try done.
  - unfold read_path in Hrd. rewrite Hdir in Hrd. simpl in Hrd.
    injection Hrd as ->. by rewrite Ho.
  - rewrite Ht. by apply app_not_self.
  - simpl in Hrd', Hdir', Hd'. exists st'. split_and!; try done.
    + rewrite Hrd'. unfold read_path in Hrd. rewrite Hdir in Hrd.
      simpl in Hrd. injection Hrd as ->. by rewrite Hh.
    + unfold read_path. simpl in Hdir'. by rewrite Hdir'.
    + by rewrite Hd'.
Qed.

End Construction.

(** ** Rewrites and appends together *)

Section RewriteAndAppend.

Context {P R : Type} {KR : K8sResource R} {RT : GoRuntime}.
Implicit Types (st : @State P R) (k : @K8sStore P R).

(** A dump that panics has only tried to create the scratch file. *)
Lemma DumpFullState_panic_files (now : Z) st msg st' :
  DumpFullState now st = Panics msg st' -> same_files (fsys st) (fsys st').
Proof.
  intros Hr. pose proof (DumpFullState_path now st) as Hp. rewrite Hr in Hp.
  inversion Hp as [|e fs1 Ht HC| | | |]; subst.
  destruct (os_Create_fail _ _ _ _ HC) as [_ ->]. apply same_files_enter.
Qed.

(** X7. A call of [DumpFullState] is all or nothing for a reader of the
    destination: either it returns [nil] after a rewrite that was not
    throttled, and the destination shows the full dump of the cache; or,
    throttled, failed with an error or panicked, it leaves the destination
    showing what it showed before. *)
Theorem DumpFullState_all_or_nothing (now : Z) st :
  fs_ok (fsys st) -> tempFileName (store st) <> destFile (store st) ->
  (exists st', DumpFullState now st = Returns None st'
     /\ ~ throttled now (store st)
     /\ read_path (fsys st') (destFile (store st)) = Some (dumpText (store st)))
  \/ read_path (fsys (final (DumpFullState now st))) (destFile (store st))
     = read_path (fsys st) (destFile (store st)).
Proof.
  intros Hfs Hne.
  destruct (DumpFullState now st) as [[e|] st'|msg st'] eqn:Hr; simpl.
  - right. by apply (DumpFullState_error now st e st' Hr).
  - destruct (Z_lt_dec (Time_Sub now (lastFullDump (store st)))
                       (TimeBetweenFullDump (storeConfig (store st)))) as [Ht|Ht].
    + right. rewrite (DumpFullState_throttled now st Ht) in Hr.
      by injection Hr as <-.
    + left. exists st'. split_and!; [done..|].
      by apply (DumpFullState_success now st st' Ht Hr).
  - right. apply same_files_read. by eapply DumpFullState_panic_files.
Qed.

(** X8. A rewrite and then an append, on a store that is past its first
    write: after a dump that went through, an append whose write goes
    through leaves at the destination the dump followed by the line of the
    new record. *)
Theorem dump_then_append (now : Z) st st1 (resource : R) :
  ~ throttled now (store st) ->
  DumpFullState now st = Returns None st1 ->
  firstWrite (store st) = false ->
  next_fault (fsys st1) = IoOk ->
  exists st2,
    AppendNewObject resource st1 = Returns None st2
    /\ read_path (fsys st2) (destFile (store st))
       = Some (dumpText (store st) +:+ ToString resource)
    /\ appending st2.
Proof.
  intros Ht Hr Hfw Hf.
  destruct (DumpFullState_success now st st1 Ht Hr) as (Hrd & _ & Hd & Hc & Ho & _).
  pose proof (DumpFullState_data now st) as (_ & Hfw1 & _ & Hde & _).
  rewrite Hr in Hfw1, Hde. simpl in Hfw1, Hde.
  assert (Ha : appending st1).
  { unfold appending. split_and!; [congruence|done|done|by rewrite Hde]. }
  eexists. split; [by apply AppendNewObject_steady|]. simpl.
  unfold read_path in Hrd. rewrite Hd in Hrd. simpl in Hrd. injection Hrd as Hrd.
  split.
  - unfold read_path. simpl. rewrite Hd. simpl. by rewrite content_set_inode, Hrd.
  - unfold appending. simpl.
    split_and!; [congruence|done|by rewrite content_set_inode|by rewrite Hde].
Qed.

(** X6. [AppendNewObject] leaves [firstWrite] cleared whatever happens,
    so the header and the rename of the scratch file are tried once in
    the life of a store and never again, even when they fail; and the
    errors it returns are those of the file operations as they are, not
    wrapped. *)
Theorem AppendNewObject_first_write_once (resource : R) st :
  firstWrite (store (final (AppendNewObject resource st))) = false
  /\ (forall e st', AppendNewObject resource st = Returns (Some e) st' ->
                    is_wrapped e = false).
Proof.
  unfold AppendNewObject, mbind, Go_bind, getStore. simpl.
  destruct (firstWrite (store st)) eqn:Hfw; simpl.
  - unfold currentFile_WriteString at 1 3. simpl.
    destruct (File_Write (currentFile (store st)) (header (store st)) (fsys st))
      as [[[n e0] f1] fs1]. simpl. unfold sys. simpl.
    destruct (os_Rename (tempFileName (store st)) (destFile (store st)) fs1)
      as [[e2|] fs2] eqn:HR; simpl.
    + split; [done|]. intros e st' [= <- <-]. by eapply os_Rename_unwrapped.
    + unfold currentFile_WriteString. simpl.
      destruct (File_Write f1 (ToString resource) fs2) as [[[n3 [e3|]] f3] fs3] eqn:HW;
        simpl; (split; [done|]); intros e st' [= <- <-].
      by eapply File_Write_unwrapped.
  - unfold currentFile_WriteString. simpl.
    destruct (File_Write (currentFile (store st)) (ToString resource) (fsys st))
      as [[[n3 [e3|]] f3] fs3] eqn:HW; simpl; (split; [done|]); intros e st' [= <- <-].
    by eapply File_Write_unwrapped.
Qed.

(** An add on a store that is ready to append, the write going through. *)
Lemma AddResource_steady st ns name body :
  appending st -> next_fault (fsys st) = IoOk ->
  let r := resourceCtor (store st) (Object ns name body) in
  let ino := f_ino (currentFile (store st)) in
  AddResource (Object ns name body) st
  = Returns ()
      (mkState
         (set_currentFile
            (mkFile (f_name (currentFile (store st))) ino
               (String.length (content (fsys st) ino +:+ ToString r)) false)
            (set_data (<[objectKey ns name := r]> (data (store st))) (store st)))
         (set_inode ino (content (fsys st) ino +:+ ToString r)
            (enter (SysWrite ino (ToString r)) true (fsys st)))
         (glog st ++ [(INFO 11, "%s added: %s")])%list).
Proof.
  intros Ha Hf r ino. unfold AddResource.
  change (call_resourceKey (Object ns name body)) with
    (mret (M := Go) (objectKey ns name) : @Go P R string).
  unfold mbind, Go_bind, mret, Go_ret, getStore, log, modify. simpl.
  rewrite AppendNewObject_steady; [done| |done].
  destruct Ha as (? & ? & ? & ?). by split_and!.
Qed.

(** X9. An add on a store that is ready to append puts the record in
    the cache under its identity and its line at the end of the
    destination file, whether the identity was cached or not. So adding
    the same object twice leaves one cache entry and two equal lines in
    the file. *)
Theorem AddResource_twice st ns name body :
  appending st -> faults (fsys st) = [] ->
  let obj := Object ns name body in
  let r := resourceCtor (store st) obj in
  exists old st1 st2,
    read_path (fsys st) (destFile (store st)) = Some old
    /\ AddResource obj st = Returns () st1
    /\ data (store st1) = <[objectKey ns name := r]> (data (store st))
    /\ read_path (fsys st1) (destFile (store st)) = Some (old +:+ ToString r)
    /\ AddResource obj st1 = Returns () st2
    /\ data (store st2) = data (store st1)
    /\ read_path (fsys st2) (destFile (store st))
       = Some (old +:+ ToString r +:+ ToString r).
Proof.
  intros Ha Hf obj r. pose proof Ha as (Hfw & Hc & Ho & Hd).
  assert (Hnf : next_fault (fsys st) = IoOk) by (unfold next_fault; by rewrite Hf).
  pose proof (AddResource_steady st ns name body Ha Hnf) as H1. simpl in H1.
  fold obj in H1. fold r in H1.
  match type of H1 with _ = Returns () ?s => set (st1 := s) in * end.
  assert (Ha1 : appending st1).
  { subst st1. unfold appending. simpl. split_and!; try done.
    by rewrite content_set_inode. }
  assert (Hnf1 : next_fault (fsys st1) = IoOk).
  { subst st1. unfold next_fault. simpl. by rewrite Hf. }
  pose proof (AddResource_steady st1 ns name body Ha1 Hnf1) as H2. simpl in H2.
  eexists _, st1, _. split_and!.
  - unfold read_path. by rewrite Hd.
  - exact H1.
  - done.
  - subst st1. unfold read_path. simpl. rewrite Hd. simpl. by rewrite content_set_inode.
  - exact H2.
  - subst st1. simpl. by rewrite insert_insert_eq.
  - subst st1. unfold read_path. simpl. rewrite Hd. simpl.
    rewrite !content_set_inode. by rewrite GoStringFacts.app_assoc.
Qed.

End RewriteAndAppend.

(** ** The cache under list, delete and update *)

Section CacheOps.

Context {P R : Type} {KR : K8sResource R} {RT : GoRuntime}.
Implicit Types (st : @State P R) (k : @K8sStore P R).

(** A dump and the warning about its error: the warning only logs. *)
Lemma dump_warn_final (now : Z) (msg : string) st :
  store (final ((DumpFullState now ≫= warnOnError msg) st))
  = store (final (DumpFullState now st))
  /\ fsys (final ((DumpFullState now ≫= warnOnError msg) st))
     = fsys (final (DumpFullState now st)).
Proof.
  rewrite final_bind. by destruct (DumpFullState now st) as [[e|] st'|m st'].
Qed.

(** What a dump does to the files, for a caller that drops its result. *)
Lemma dump_warn_files (now : Z) (msg : string) st :
  (throttled now (store st) ->
   fsys (final ((DumpFullState now ≫= warnOnError msg) st)) = fsys st)
  /\ (~ throttled now (store st) -> faults (fsys st) = [] ->
      read_path (fsys (final ((DumpFullState now ≫= warnOnError msg) st)))
        (destFile (store st))
      = Some (dumpText (store st))).
Proof.
  destruct (dump_warn_final now msg st) as [_ ->]. split.
  - intros Ht. by rewrite DumpFullState_throttled.
  - intros Ht Hf. destruct (DumpFullState_nofault now st Ht Hf) as (st' & Hr & _).
    rewrite Hr. simpl. by apply (DumpFullState_success now st st' Ht Hr).
Qed.

Lemma lastListed_cons key (o : Obj P) lst :
  lastListed key (o :: lst)
  = match lastListed key lst with
    | Some o' => Some o'
    | None => if decide (resourceKey o = Some key) then Some o else None
    end.
Proof.
  unfold lastListed. rewrite filter_cons.
  destruct (decide (resourceKey o = Some key)); [rewrite last_cons|];
    by destruct (last _).
Qed.

(** The loop of [AddResourceList] over API objects: the object listed
    last under an identity is the one cached. *)
Lemma addAll_spec (lst : list (Obj P)) :
  forall st,
  Forall (fun o => is_Some (resourceKey o)) lst ->
  exists d,
    addAll lst st = Returns () (mkState (set_data d (store st)) (fsys st) (glog st))
    /\ forall key,
         d !! key = match lastListed key lst with
                    | Some o => Some (resourceCtor (store st) o)
                    | None => data (store st) !! key
                    end.
Proof.
  induction lst as [|o lst IH]; intros st Hall.
  { exists (data (store st)). split; [|done]. simpl.
    rewrite set_data_id. by destruct st. }
  apply Forall_cons in Hall as [[key0 Hk] Hall].
  destruct o as [ns name body| |]; try discriminate. simpl in Hk. injection Hk as <-.
  destruct (IH (mkState (set_data (<[objectKey ns name :=
                                      resourceCtor (store st) (Object ns name body)]>
                                     (data (store st))) (store st))
                  (fsys st) (glog st)) Hall) as (d & Hr & Hd).
  exists d. split; [exact Hr|].
  intros key. rewrite Hd, lastListed_cons. simpl.
  destruct (lastListed key lst); [done|].
  destruct (decide (Some (objectKey ns name) = Some key)) as [[= <-]|Hne].
  - by rewrite lookup_insert_eq.
  - rewrite lookup_insert_ne; [done|]. congruence.
Qed.

(** The loop stops with a panic at the first element that is no API
    object; the objects before it are cached. *)
Lemma addAll_panics (pre : list (Obj P)) (bad : Obj P) (post : list (Obj P)) :
  forall st,
  Forall (fun o => is_Some (resourceKey o)) pre ->
  resourceKey bad = None ->
  exists msg d,
    addAll (pre ++ bad :: post) st
    = Panics msg (mkState (set_data d (store st)) (fsys st) (glog st))
    /\ forall key,
         d !! key = match lastListed key pre with
                    | Some o => Some (resourceCtor (store st) o)
                    | None => data (store st) !! key
                    end.
Proof.
  induction pre as [|o pre IH]; intros st Hall Hbad.
  { eexists _, (data (store st)). split; [|done]. simpl.
    unfold call_resourceKey. rewrite Hbad. rewrite set_data_id. by destruct st. }
  apply Forall_cons in Hall as [[key0 Hk] Hall].
  destruct o as [ns name body| |]; try discriminate. simpl in Hk. injection Hk as <-.
  destruct (IH (mkState (set_data (<[objectKey ns name :=
                                      resourceCtor (store st) (Object ns name body)]>
                                     (data (store st))) (store st))
                  (fsys st) (glog st)) Hall Hbad) as (msg & d & Hr & Hd).
  exists msg, d. split; [exact Hr|].
  intros key. rewrite Hd, lastListed_cons. simpl.
  destruct (lastListed key pre); [done|].
  destruct (decide (Some (objectKey ns name) = Some key)) as [[= <-]|Hne].
  - by rewrite lookup_insert_eq.
  - rewrite lookup_insert_ne; [done|]. congruence.
Qed.

(** X10. [AddResourceList] on a list of API objects replaces the cache:
    afterwards an identity is cached exactly if it is listed, with the
    record of the object listed last under it; what was cached before is
    gone. The file follows only if the rewrite is not throttled: throttled,
    no file is touched; not throttled and with no system call failing, the
    destination shows the dump of the new cache. *)
Theorem AddResourceList_replaces (now : Z) (lst : list (Obj P)) st :
  Forall (fun o => is_Some (resourceKey o)) lst ->
  exists d,
    data (store (final (AddResourceList now lst st))) = d
    /\ (forall key, d !! key = resourceCtor (store st) <$> lastListed key lst)
    /\ (throttled now (store st) -> fsys (final (AddResourceList now lst st)) = fsys st)
    /\ (~ throttled now (store st) -> faults (fsys st) = [] ->
        read_path (fsys (final (AddResourceList now lst st))) (destFile (store st))
        = Some (dumpText (set_data d (store st)))).
Proof.
  intros Hall.
  destruct (addAll_spec lst (mkState (set_data ∅ (store st)) (fsys st) (glog st)) Hall)
    as (d & Hr & Hd). simpl in Hr, Hd.
  assert (Hunf : AddResourceList now lst st
                 = (DumpFullState now ≫= warnOnError "Error when dumping state: %v")
                     (mkState (set_data d (store st)) (fsys st) (glog st))).
  { unfold AddResourceList, mbind, Go_bind, modify. simpl. by rewrite Hr. }
  exists d. rewrite Hunf.
  destruct (dump_warn_final now "Error when dumping state: %v"
              (mkState (set_data d (store st)) (fsys st) (glog st))) as [Hs Hf].
  destruct (dump_warn_files now "Error when dumping state: %v"
              (mkState (set_data d (store st)) (fsys st) (glog st))) as [Ht Hnt].
  split_and!.
  - rewrite Hs. by destruct (DumpFullState_data now
                               (mkState (set_data d (store st)) (fsys st) (glog st))) as [-> _].
  - intros key. rewrite Hd. destruct (lastListed key lst); [done|]. apply lookup_empty.
  - exact Ht.
  - exact Hnt.
Qed.

(** X11. [AddResourceList] on a list with an element that is no API
    object panics at the first such element: the old cache is gone, the
    objects listed before the element are cached, and no file has been
    touched, so the destination still shows the old state. *)
Theorem AddResourceList_panics (now : Z) (pre : list (Obj P)) (bad : Obj P)
    (post : list (Obj P)) st :
  Forall (fun o => is_Some (resourceKey o)) pre ->
  resourceKey bad = None ->
  exists msg d,
    AddResourceList now (pre ++ bad :: post) st
    = Panics msg (mkState (set_data d (store st)) (fsys st) (glog st))
    /\ forall key, d !! key = resourceCtor (store st) <$> lastListed key pre.
Proof.
  intros Hall Hbad.
  destruct (addAll_panics pre bad post
              (mkState (set_data ∅ (store st)) (fsys st) (glog st)) Hall Hbad)
    as (msg & d & Hr & Hd). simpl in Hr, Hd.
  exists msg, d. split.
  - unfold AddResourceList, mbind, Go_bind, modify. simpl. by rewrite Hr.
  - intros key. rewrite Hd. destruct (lastListed key pre); [done|]. apply lookup_empty.
Qed.

(** X12. [AddResourceList] with an empty list empties the cache, and a
    rewrite that is not throttled and meets no failure leaves the
    destination with the header and nothing else. *)
Theorem AddResourceList_empty (now : Z) st :
  ~ throttled now (store st) -> faults (fsys st) = [] ->
  data (store (final (AddResourceList now [] st))) = ∅
  /\ read_path (fsys (final (AddResourceList now [] st))) (destFile (store st))
     = Some (header (store st)).
Proof.
  intros Ht Hf.
  change (AddResourceList now [] st)
    with ((DumpFullState now ≫= warnOnError "Error when dumping state: %v")
            (mkState (set_data ∅ (store st)) (fsys st) (glog st))).
  destruct (dump_warn_final now "Error when dumping state: %v"
              (mkState (set_data ∅ (store st)) (fsys st) (glog st))) as [Hs _].
  destruct (dump_warn_files now "Error when dumping state: %v"
              (mkState (set_data ∅ (store st)) (fsys st) (glog st))) as [_ Hnt].
  split.
  - rewrite Hs. by destruct (DumpFullState_data now
                               (mkState (set_data ∅ (store st)) (fsys st) (glog st))) as [-> _].
  - etransitivity; [exact (Hnt Ht Hf)|]. unfold dumpText. simpl.
    pose proof (mapRange_perm R ∅) as Hp. rewrite map_to_list_empty in Hp.
    apply Permutation_nil_r in Hp. rewrite Hp. simpl.
    by rewrite GoStringFacts.app_nil_r.
Qed.

End CacheOps.

Section DeleteAndUpdate.

Context {P R : Type} {KR : K8sResource R} {RT : GoRuntime}.
Implicit Types (st : @State P R) (k : @K8sStore P R).

(** X13. [DeleteResource] on an API object, or on a tombstone that wraps
    one (the key of the tombstone is not looked at), takes the identity
    out of the cache and leaves every other entry; an identity that is not
    cached is no error. The file follows only if the rewrite is not
    throttled: throttled, no file is touched and the destination keeps the
    line; not throttled and with no system call failing, the destination
    shows the dump of the cache without the identity. *)
Theorem DeleteResource_removes (now : Z) st ns name body (Key : string) :
  let obj := Object ns name body in
  let rest := delete (objectKey ns name) (data (store st)) in
  DeleteResource now (DeletedFinalStateUnknown Key obj) st = DeleteResource now obj st
  /\ data (store (final (DeleteResource now obj st))) = rest
  /\ (throttled now (store st) -> fsys (final (DeleteResource now obj st)) = fsys st)
  /\ (~ throttled now (store st) -> faults (fsys st) = [] ->
      read_path (fsys (final (DeleteResource now obj st))) (destFile (store st))
      = Some (dumpText (set_data rest (store st)))).
Proof.
  intros obj rest.
  set (st0 := mkState (set_data rest (store st)) (fsys st)
                (glog st ++ [(INFO 11, "%s deleted: %s")])%list).
  assert (Hunf : DeleteResource now obj st
                 = (DumpFullState now ≫= warnOnError "Error when dumping state: %v") st0)
    by reflexivity.
  split; [reflexivity|]. rewrite Hunf.
  destruct (dump_warn_final now "Error when dumping state: %v" st0) as [Hs _].
  destruct (dump_warn_files now "Error when dumping state: %v" st0) as [Ht Hnt].
  split_and!.
  - rewrite Hs. by destruct (DumpFullState_data now st0) as [-> _].
  - exact Ht.
  - exact Hnt.
Qed.

(** X14. An argument that is no API object makes the unchecked type
    assertion of [resourceKey] panic: [AddResource], [UpdateResource] (on
    its new object) and [DeleteResource] on a tombstone that wraps it
    panic before they change anything, cache, files or log. *)
Theorem type_assertion_panics (now : Z) st (obj oldObj : Obj P) (Key : string) :
  resourceKey obj = None ->
  exists msg,
    AddResource obj st = Panics msg st
    /\ UpdateResource now oldObj obj st = Panics msg st
    /\ DeleteResource now (DeletedFinalStateUnknown Key obj) st = Panics msg st.
Proof.
  intros Hk. eexists.
  unfold AddResource, UpdateResource, DeleteResource, call_resourceKey.
  rewrite Hk. by split_and!.
Qed.


(** X16. From [NewK8sStore] on, along every stream of calls and whatever
    fails or panics on the way: the file system stays well formed, the
    scratch path differs from the destination, every key of the cache is
    a namespace and a name joined by an underscore, and none is the
    placeholder "Unknown" of [DeleteResource]. *)
Theorem store_inv_reachable cfg sc (fs : FS) k fs' lg (cs : list call) :
  NewK8sStore cfg sc fs = (inl k, fs') ->
  fs_ok fs ->
  let st := final (run cs (mkState k fs' lg)) in
  fs_ok (fsys st)
  /\ tempFileName (store st) <> destFile (store st)
  /\ (forall key r, data (store st) !! key = Some r ->
        exists ns name, key = objectKey ns name)
  /\ data (store st) !! "Unknown" = None.
Proof.
  intros H Hfs st.
  pose proof (NewK8sStore_inv cfg sc fs k fs' lg H Hfs) as Hinv.
  apply (preserves_run cs) in Hinv. fold st in Hinv.
  destruct Hinv as (H1 & H2 & H3). split_and!; try done.
  by apply keys_ok_Unknown.
Qed.

End DeleteAndUpdate.

Section AfterFailure.

Context {P R : Type} {KR : K8sResource R} {RT : GoRuntime}.
Implicit Types (st : @State P R) (k : @K8sStore P R).

(** A rewrite that failed left the store with the file it held, open if
    the failure came before the rename, closed if the rename failed. *)
Lemma DumpFullState_error_file (now : Z) st e st' :
  DumpFullState now st = Returns (Some e) st' ->
  (currentFile (store st') = currentFile (store st)
   /\ forall e0, e <> Wrapf e0 ("Error moving file from " +:+ tempFileName (store st)
                                 +:+ " to " +:+ destFile (store st)))
  \/ (f_closed (currentFile (store st')) = true
      /\ f_name (currentFile (store st')) = f_name (currentFile (store st))).
Proof.
  intros Hr. pose proof (DumpFullState_path now st) as Hp. rewrite Hr in Hp.
  inversion Hp as [| |f e' fs1 Ht HC|f fs1 s e' w fs2 Ht HC HF
                   |f fs1 w fs2 ec fc fs3 e' fs4 Ht HC HF HCl HR|]; subst.
  - by destruct (os_Create_not_both _ _ _ _ _ HC).
  - left. split; [done|]. intros e0. by destruct s.
  - right. simpl. revert HCl. unfold File_Close.
    destruct (f_closed (currentFile (store st))) eqn:Hc.
    + by intros [= <- <- <-].
    + destruct (next_fault fs2); by intros [= <- <- <-].
Qed.

(** X17. [DumpFullState] closes the file the store holds before it
    renames the scratch file, and keeps it when the rename fails: after a
    rewrite that failed at the rename, the store holds a closed file, and
    an append on a store past its first write returns the error of a
    closed file and writes nothing. *)
Theorem failed_rename_closes_file (now : Z) st e0 st' (resource : R) :
  DumpFullState now st
  = Returns (Some (Wrapf e0 ("Error moving file from " +:+ tempFileName (store st)
                               +:+ " to " +:+ destFile (store st)))) st' ->
  firstWrite (store st) = false ->
  f_closed (currentFile (store st')) = true
  /\ AppendNewObject resource st'
     = Returns (Some (PathError "write" (f_name (currentFile (store st))) ErrClosed)) st'.
Proof.
  intros Hr Hfw.
  destruct (DumpFullState_error_file now st _ st' Hr) as [[_ Hne]|[Hc Hn]].
  { by destruct (Hne e0). }
  split; [done|].
  pose proof (DumpFullState_data now st) as (_ & Hfw' & _).
  rewrite Hr in Hfw'. simpl in Hfw'.
  unfold AppendNewObject, mbind, Go_bind, getStore. simpl.
  rewrite Hfw', Hfw. simpl. unfold currentFile_WriteString, File_Write.
  rewrite Hc, Hn. simpl. by destruct st' as [[] ? ?].
Qed.

End AfterFailure.

(** * Nodes *)

Module NodeSummaryFacts.
Import NodeSummary.

Lemma prefix_split (p k : string) :
  String.prefix p k = true -> k = p +:+ GoString.drop (String.length p) k.
Proof.
  revert k. induction p as [|a p IH]; intros k H; [by destruct k|].
  destruct k as [|b k]; [discriminate|]. simpl in H.
  destruct (Ascii.ascii_dec a b) as [->|]; [|discriminate].
  rewrite GoStringFacts.app_cons. simpl. f_equal. by apply IH.
Qed.

Lemma prefix_app (p r : string) : String.prefix p (p +:+ r) = true.
Proof.
  induction p as [|a p IH]; [by destruct r|].
  rewrite GoStringFacts.app_cons. simpl. by destruct (Ascii.ascii_dec a a).
Qed.

Lemma drop_app_length (p r : string) : GoString.drop (String.length p) (p +:+ r) = r.
Proof. induction p as [|a p IH]; [by destruct r|]. by rewrite GoStringFacts.app_cons. Qed.

(** Replacing a prefix by nothing strips it. *)
Lemma Replace1_prefix (p k : string) :
  String.prefix p k = true ->
  Replace1 k p EmptyString = GoString.drop (String.length p) k.
Proof.
  intros H. destruct k as [|a k].
  - by destruct p.
  - simpl in *. by rewrite H.
Qed.

Section Facts.

Context {ObjectMeta ResourceMeta : Type}.
Context (zeroMeta : ResourceMeta)
        (FromObjectMeta : ResourceMeta -> ObjectMeta -> ResourceMeta)
        (name : ResourceMeta -> string)
        (labels : ResourceMeta -> gmap string string)
        (resourceAge labelsString : ResourceMeta -> string)
        (JoinSlicesOrNone : list string -> string -> string).
Context {RT : GoRuntime}.

Lemma addRoles_spec (kvs : list (string * string)) :
  forall acc,
  addRoles kvs acc
  = (acc ++ (strip <$> filter (fun kv => HasPrefix kv.1 nodePrefix = true) kvs))%list.
Proof.
  induction kvs as [|[k v] kvs IH]; intros acc; simpl.
  { by rewrite app_nil_r. }
  rewrite filter_cons. simpl.
  destruct (HasPrefix k nodePrefix) eqn:Hp.
  - rewrite decide_True by done. rewrite IH, <- app_assoc.
    rewrite (Replace1_prefix _ _ Hp). reflexivity.
  - rewrite decide_False by done. apply IH.
Qed.

(** X18. The roles of a node built by [NewNodeFromRuntime] are the
    labels with the prefix "node-role.kubernetes.io/", the prefix taken
    off: a string is a role exactly if the prefix followed by it is a
    label of the node, and no role comes twice. *)
Theorem FromRuntime_roles (node : @CoreNode ObjectMeta) :
  let n := FromRuntime FromObjectMeta labels (zeroNode zeroMeta) node in
  (forall r, r ∈ roles n <-> is_Some (labels (meta n) !! (nodePrefix +:+ r)))
  /\ NoDup (roles n).
Proof.
  intros n. subst n. unfold FromRuntime. simpl.
  set (L := labels (FromObjectMeta zeroMeta (nodeObjectMeta node))).
  rewrite addRoles_spec. simpl.
  pose proof (mapRange_perm string L) as Hperm.
  assert (Hin : forall k v, (k, v) ∈ mapRange L <-> L !! k = Some v).
  { intros k v. rewrite Hperm. apply elem_of_map_to_list. }
  split.
  - intros r. rewrite list_elem_of_fmap. split.
    + intros ([k v] & -> & Hkv). apply list_elem_of_filter in Hkv as [Hp Hkv].
      simpl in Hp. exists v.
      change (strip (k, v)) with (GoString.drop (String.length nodePrefix) k).
      rewrite <- (prefix_split _ _ Hp). by apply Hin.
    + intros [v Hv]. exists (nodePrefix +:+ r, v). split.
      * change (strip (nodePrefix +:+ r, v))
          with (GoString.drop (String.length nodePrefix) (nodePrefix +:+ r)).
        by rewrite drop_app_length.
      * apply list_elem_of_filter. split; [apply prefix_app|by apply Hin].
  - apply NoDup_fmap_2_strong.
    + intros [k1 v1] [k2 v2] H1 H2 Heq.
      apply list_elem_of_filter in H1 as [Hp1 H1]. apply list_elem_of_filter in H2 as [Hp2 H2].
      simpl in Hp1, Hp2.
      change (GoString.drop (String.length nodePrefix) k1
              = GoString.drop (String.length nodePrefix) k2) in Heq.
      assert (k1 = k2) as ->.
      { rewrite (prefix_split _ _ Hp1), (prefix_split _ _ Hp2). by rewrite Heq. }
      apply Hin in H1, H2. congruence.
    + apply NoDup_filter. rewrite Hperm. apply NoDup_map_to_list.
Qed.

Lemma setInternalIP_spec (addrs : list NodeAddress) :
  forall ip,
  setInternalIP addrs ip
  = match last (filter (fun v => addrType v = "InternalIP") addrs) with
    | Some v => addrAddress v
    | None => ip
    end.
Proof.
  induction addrs as [|v addrs IH]; intros ip; simpl; [done|].
  rewrite IH, filter_cons.
  destruct (String.eqb_spec (addrType v) "InternalIP") as [He|He].
  - rewrite decide_True by done. rewrite last_cons. by destruct (last _).
  - by rewrite decide_False by done.
Qed.

(** X19. The internal IP of a node built by [NewNodeFromRuntime] is the
    address of the last entry of type "InternalIP" among the addresses of
    the node, and the empty string when there is none. *)
Theorem FromRuntime_internalIP (node : @CoreNode ObjectMeta) :
  internalIP (FromRuntime FromObjectMeta labels (zeroNode zeroMeta) node)
  = default EmptyString
      (addrAddress <$> last (filter (fun v => addrType v = "InternalIP")
                               (nodeAddresses node))).
Proof. unfold FromRuntime. simpl. rewrite setInternalIP_spec. by destruct (last _). Qed.

Lemma nl_free_app (a b : string) :
  GoString.nl_free (a +:+ b) = GoString.nl_free a && GoString.nl_free b.
Proof.
  induction a as [|c a IH]; [done|].
  rewrite GoStringFacts.app_cons. simpl. by rewrite IH, andb_assoc.
Qed.

Lemma is_line_snoc (s : string) :
  GoString.nl_free s = true ->
  GoString.is_line (s +:+ String GoString.newline EmptyString) = true.
Proof.
  induction s as [|c s IH]; [done|]. intros H. simpl in H.
  apply andb_true_iff in H as [Hc Hs]. rewrite GoStringFacts.app_cons.
  specialize (IH Hs).
  change (GoString.is_line (String c (s +:+ String GoString.newline EmptyString)))
    with (match s +:+ String GoString.newline EmptyString with
          | EmptyString => Ascii.eqb c GoString.newline
          | String _ _ => negb (Ascii.eqb c GoString.newline)
                          && GoString.is_line (s +:+ String GoString.newline EmptyString)
          end).
  destruct (s +:+ String GoString.newline EmptyString) eqn:Hs'; [by destruct s|].
  by rewrite Hc, IH.
Qed.

Lemma nl_free_Join (elems : list string) (sep : string) :
  Forall (fun e => GoString.nl_free e = true) elems -> GoString.nl_free sep = true ->
  GoString.nl_free (NodeResource.Join elems sep) = true.
Proof.
  intros Hall Hsep. induction Hall as [|e elems He Hall IH]; [done|].
  destruct elems as [|e' elems]; [done|].
  change (NodeResource.Join (e :: e' :: elems) sep)
    with (e +:+ sep +:+ NodeResource.Join (e' :: elems) sep).
  by rewrite !nl_free_app, He, Hsep, IH.
Qed.

(** X20. [ToString] renders a node as one line, terminated by a newline,
    when none of the seven fields it joins holds a newline. *)
Theorem ToString_is_line (n : @Node ResourceMeta) :
  GoString.nl_free (name (meta n)) = true ->
  GoString.nl_free (JoinSlicesOrNone (roles n) ",") = true ->
  GoString.nl_free (instanceType n) = true ->
  GoString.nl_free (zone n) = true ->
  GoString.nl_free (internalIP n) = true ->
  GoString.nl_free (resourceAge (meta n)) = true ->
  GoString.nl_free (labelsString (meta n)) = true ->
  GoString.is_line (ToString name resourceAge labelsString JoinSlicesOrNone n) = true.
Proof.
  intros H1 H2 H3 H4 H5 H6 H7. unfold ToString.
  apply is_line_snoc. apply nl_free_Join; [|done].
  by repeat constructor.
Qed.

End Facts.

End NodeSummaryFacts.

(** ** A store of nodes *)

Module NodeStore.
Import NodeResource.

(** X21. [HasChanged] of a node answers true whatever it is given, so on
    a store of nodes every update of an API object, changed or not,
    cached or not, puts the record in the cache and costs a full rewrite
    of the file when the rewrite is not throttled and no system call
    fails. *)
Theorem node_update_always_rewrites {RT : GoRuntime} (now : Z) (st : @State Node Node)
    (oldObj : Obj Node) ns name body :
  ~ throttled now (store st) -> faults (fsys st) = [] ->
  let newObj := Object ns name body in
  let d := <[objectKey ns name := resourceCtor (store st) newObj]> (data (store st)) in
  exists st',
    UpdateResource now oldObj newObj st = Returns () st'
    /\ data (store st') = d
    /\ renames (fsys st') = S (renames (fsys st))
    /\ read_path (fsys st') (destFile (store st))
       = Some (dumpText (set_data d (store st))).
Proof.
  intros Ht Hf newObj d.
  set (st0 := mkState (set_data d (store st)) (fsys st)
                (glog st ++ [(INFO 11, "%s changed: %s")])%list).
  assert (Hunf : UpdateResource now oldObj newObj st
                 = (DumpFullState now ≫= warnOnError "Error when dumping state: %v") st0)
    by reflexivity.
  destruct (DumpFullState_nofault now st0 Ht Hf) as (st' & Hr & _).
  destruct (DumpFullState_success now st0 st' Ht Hr) as (Hrd & Hrn & _).
  pose proof (DumpFullState_data now st0) as (Hd & _). rewrite Hr in Hd. simpl in Hd.
  exists st'. rewrite Hunf. unfold mbind, Go_bind. rewrite Hr. simpl.
  by split_and!.
Qed.

End NodeStore.

(** ** The further properties at work on a store of nodes *)

Module MoreInstances.
Import NodeResource Scenario MoreRuns.

Lemma fs_ok_empty (fl : list fault) : fs_ok (emptyFS fl).
Proof. split; simpl; intros *; by rewrite lookup_empty. Qed.

Lemma fresh_built :
  NewK8sStore cfg storeCfg (emptyFS []) = (inl (store (fresh [])), fsys (fresh [])).
Proof. vm_compute. reflexivity. Qed.

Lemma fresh_inv : store_inv (fresh []).
Proof. exact (NewK8sStore_inv cfg storeCfg (emptyFS []) _ _ [] fresh_built (fs_ok_empty [])). Qed.

Lemma reached_inv (cs : list call) : store_inv (reached cs []).
Proof. exact (preserves_run cs (fresh []) fresh_inv). Qed.

Lemma added_appending : appending added.
Proof. unfold appending. vm_compute. by split_and!. Qed.

(** A cache directory with a trailing slash and an empty cluster name:
    the paths of the store are the cleaned ones. *)
Example NewK8sStore_cleans_paths :
  match (NewK8sStore cfg (mkStoreConfig EmptyString "/tmp/cache/" 1) (emptyFS [])).1 with
  | inl k => Some (destFile k, tempFileName k)
  | inr _ => None
  end = Some ("/tmp/cache/nodes", "/tmp/cache/nodes_").
Proof. vm_compute. reflexivity. Qed.

Lemma NewK8sStore_success_witness :
  NewK8sStore cfg storeCfg (emptyFS []) = (inl (store (fresh [])), fsys (fresh []))
  /\ data (store (fresh [])) = ∅.
Proof.
  split; [exact fresh_built|].
  exact (proj1 (NewK8sStore_success _ _ _ _ _ fresh_built)).
Defined.

Lemma NewK8sStore_failure_witness :
  NewK8sStore cfg storeCfg (emptyFS [IoFail 0])
  = (inr (Wrapf (PathError "mkdir" "/tmp/kubectl_fzf_cache/minikube" EIO)
            "Error creating directory /tmp/kubectl_fzf_cache/minikube"),
     (NewK8sStore cfg storeCfg (emptyFS [IoFail 0])).2)
  /\ faults (emptyFS [IoFail 0]) <> [].
Proof.
  assert (H : NewK8sStore cfg storeCfg (emptyFS [IoFail 0])
              = (inr (Wrapf (PathError "mkdir" "/tmp/kubectl_fzf_cache/minikube" EIO)
                        "Error creating directory /tmp/kubectl_fzf_cache/minikube"),
                 (NewK8sStore cfg storeCfg (emptyFS [IoFail 0])).2))
    by (vm_compute; reflexivity).
  split; [exact H|].
  exact (proj2 (proj2 (proj2 (NewK8sStore_failure _ _ _ _ _ H)))).
Defined.

Lemma first_dump_not_throttled_witness : ~ throttled t0 (store (fresh [])).
Proof.
  assert (H1 : (TimeBetweenFullDump storeCfg <= maxDuration)%Z)
    by (vm_compute; discriminate).
  assert (H2 : (TimeBetweenFullDump storeCfg <= t0)%Z) by (vm_compute; discriminate).
  exact (first_dump_not_throttled _ _ _ _ _ t0 fresh_built H1 H2).
Defined.

Lemma first_append_bootstraps_witness :
  exists st',
    AppendNewObject (NewNodeFromRuntime x) (mkState (store (fresh [])) (fsys (fresh [])) [])
    = Returns None st'.
Proof.
  assert (Hf : faults (fsys (fresh [])) = []) by (vm_compute; reflexivity).
  destruct (first_append_bootstraps _ _ _ _ _ [] (NewNodeFromRuntime x) fresh_built Hf)
    as (st' & Hr & _).
  by exists st'.
Defined.

Lemma AppendNewObject_appends_witness :
  exists st', AppendNewObject (NewNodeFromRuntime y) added = Returns None st'.
Proof.
  assert (Hf : next_fault (fsys added) = IoOk) by (vm_compute; reflexivity).
  destruct (AppendNewObject_appends (NewNodeFromRuntime y) added added_appending Hf)
    as (old & st' & Hr & _).
  by exists st'.
Defined.

Lemma AppendNewObject_first_write_once_witness :
  firstWrite (store (final (AppendNewObject (NewNodeFromRuntime y) listed))) = false
  /\ is_wrapped (errorOf (AppendNewObject (NewNodeFromRuntime y) listed)) = false.
Proof.
  assert (H : AppendNewObject (NewNodeFromRuntime y) listed
              = Returns (Some (errorOf (AppendNewObject (NewNodeFromRuntime y) listed)))
                  (final (AppendNewObject (NewNodeFromRuntime y) listed)))
    by (vm_compute; reflexivity).
  split.
  - exact (proj1 (AppendNewObject_first_write_once (NewNodeFromRuntime y) listed)).
  - exact (proj2 (AppendNewObject_first_write_once (NewNodeFromRuntime y) listed) _ _ H).
Defined.

Lemma DumpFullState_all_or_nothing_witness :
  read_path (fsys (final (DumpFullState t0 (fresh [])))) (destFile (store (fresh [])))
  <> None
  \/ read_path (fsys (final (DumpFullState t0 (fresh [])))) (destFile (store (fresh [])))
     = read_path (fsys (fresh [])) (destFile (store (fresh []))).
Proof.
  destruct fresh_inv as (Hfs & Hne & _).
  destruct (DumpFullState_all_or_nothing t0 (fresh []) Hfs Hne) as [(st' & Hr & _ & Hrd)|H].
  - left. rewrite Hr. simpl. by rewrite Hrd.
  - by right.
Defined.

Lemma dump_then_append_witness :
  exists st2,
    AppendNewObject (NewNodeFromRuntime y) (final (DumpFullState t0 added))
    = Returns None st2.
Proof.
  assert (H1 : ~ throttled t0 (store added)) by (unfold throttled; vm_compute; discriminate).
  assert (H2 : DumpFullState t0 added = Returns None (final (DumpFullState t0 added)))
    by (vm_compute; reflexivity).
  assert (H3 : firstWrite (store added) = false) by (vm_compute; reflexivity).
  assert (H4 : next_fault (fsys (final (DumpFullState t0 added))) = IoOk)
    by (vm_compute; reflexivity).
  destruct (dump_then_append t0 added _ (NewNodeFromRuntime y) H1 H2 H3 H4)
    as (st2 & Hr & _).
  by exists st2.
Defined.

Lemma AddResource_twice_witness :
  exists st1, AddResource x added = Returns () st1.
Proof.
  assert (Hf : faults (fsys added) = []) by (vm_compute; reflexivity).
  destruct (AddResource_twice added "a" "x" (body "10.0.0.1") added_appending Hf)
    as (old & st1 & st2 & _ & Hr & _).
  by exists st1.
Defined.

Lemma AddResourceList_replaces_witness :
  exists d, data (store (final (AddResourceList t0 [x; y] (fresh [])))) = d
            /\ d !! "zz" = resourceCtor (store (fresh [])) <$> lastListed "zz" [x; y].
Proof.
  assert (Hall : Forall (fun o : Obj Node => is_Some (resourceKey o)) [x; y])
    by (repeat (constructor; [by eexists|]); constructor).
  destruct (AddResourceList_replaces t0 [x; y] (fresh []) Hall) as (d & Hd & Hk & _).
  exists d. split; [exact Hd|exact (Hk "zz")].
Defined.

Lemma AddResourceList_panics_witness :
  exists msg st', AddResourceList t0 ([x] ++ stray :: [y]) (fresh []) = Panics msg st'.
Proof.
  assert (Hall : Forall (fun o : Obj Node => is_Some (resourceKey o)) [x])
    by (repeat (constructor; [by eexists|]); constructor).
  assert (Hbad : resourceKey stray = None) by reflexivity.
  destruct (AddResourceList_panics t0 [x] stray [y] (fresh []) Hall Hbad)
    as (msg & d & Hr & _).
  by eexists _, _.
Defined.

Lemma AddResourceList_empty_witness :
  read_path (fsys (final (AddResourceList t0 [] (fresh [])))) (destFile (store (fresh [])))
  = Some (header (store (fresh []))).
Proof.
  assert (Hf : faults (fsys (fresh [])) = []) by (vm_compute; reflexivity).
  assert (Ht : ~ throttled t0 (store (fresh [])))
    by (unfold throttled; vm_compute; discriminate).
  exact (proj2 (AddResourceList_empty t0 (fresh []) Ht Hf)).
Defined.

Lemma DeleteResource_removes_witness :
  data (store (final (DeleteResource t1 x listed)))
  = delete (objectKey "a" "x") (data (store listed)).
Proof.
  exact (proj1 (proj2 (DeleteResource_removes t1 listed "a" "x" (body "10.0.0.1") "a/x"))).
Defined.

Lemma type_assertion_panics_witness :
  exists msg, AddResource stray (fresh []) = Panics msg (fresh []).
Proof.
  assert (Hk : resourceKey stray = None) by reflexivity.
  destruct (type_assertion_panics t0 (fresh []) stray x "k" Hk) as (msg & Hr & _).
  by exists msg.
Defined.


Lemma store_inv_reachable_witness :
  data (store (final (run [OnList t0 [x]; OnAdd y]
                        (mkState (store (fresh [])) (fsys (fresh [])) []))))
  !! "Unknown" = None.
Proof.
  exact (proj2 (proj2 (proj2 (store_inv_reachable _ _ _ _ _ [] [OnList t0 [x]; OnAdd y]
                                fresh_built (fs_ok_empty []))))).
Defined.

Lemma failed_rename_closes_file_witness :
  f_closed (currentFile (store (final (DumpFullState t0 renameFailing)))) = true.
Proof.
  assert (H : DumpFullState t0 renameFailing
              = Returns (Some (Wrapf (LinkError "rename" temp dest EIO)
                                 ("Error moving file from " +:+ tempFileName (store renameFailing)
                                  +:+ " to " +:+ destFile (store renameFailing))))
                  (final (DumpFullState t0 renameFailing)))
    by (vm_compute; reflexivity).
  assert (Hfw : firstWrite (store renameFailing) = false) by (vm_compute; reflexivity).
  exact (proj1 (failed_rename_closes_file t0 renameFailing _ _ (NewNodeFromRuntime y) H Hfw)).
Defined.

Lemma ToString_is_line_witness :
  GoString.is_line
    (NodeSummary.ToString fst exAge exLabelsString JoinSlicesOrNone exSummary) = true.
Proof.
  apply (NodeSummaryFacts.ToString_is_line fst exAge exLabelsString JoinSlicesOrNone
           exSummary); vm_compute; reflexivity.
Defined.

Lemma node_update_always_rewrites_witness :
  exists st', UpdateResource t1 x x listed = Returns () st'.
Proof.
  assert (Ht : ~ throttled t1 (store listed)) by (unfold throttled; vm_compute; discriminate).
  assert (Hf : faults (fsys listed) = []) by (vm_compute; reflexivity).
  destruct (NodeStore.node_update_always_rewrites t1 listed x "a" "x" (body "10.0.0.1") Ht Hf)
    as (st' & Hr & _).
  by exists st'.
Defined.

End MoreInstances.
